(** * Mermaid Chart Studio: the editor session of [src/app/page.tsx]

    The React component [MermaidEditor] is embedded as a state machine:
    a record holds the component's [useState] cells, its refs and the part
    of the browser it talks to (the debounce timer, the renders in flight,
    the [localStorage] slot, the host's fullscreen element), and every
    handler and effect of the component is a function on that record.

    Conventions.
    - A JavaScript string is the list of its UTF-16 code units.
    - Time is counted in milliseconds.
    - A JavaScript number is an exact rational or one of the three IEEE
      specials; rounding of finite results is not modelled.
    - The Mermaid renderer is an opaque function of the target id, the text
      and the theme configured when it is called.
    - [localStorage.setItem] stores what it is given (no quota). *)

From Stdlib Require Import List Bool Arith NArith ZArith QArith Lia.
From Stdlib Require Import Ascii String DecimalString DecimalN.
Import ListNotations.

(* ================================================================== *)
(** ** JavaScript strings *)
(* ================================================================== *)

Module JS.

(** A string is its sequence of UTF-16 code units. *)
Definition jsstring := list N.

(** An ASCII literal as a JavaScript string. *)
Definition js (s : string) : jsstring :=
  List.map N_of_ascii (list_ascii_of_string s).

Fixpoint str_eqb (a b : jsstring) : bool :=
  match a, b with
  | [], [] => true
  | x :: a', y :: b' => N.eqb x y && str_eqb a' b'
  | _, _ => false
  end.

(** Truthiness of a string: [!s] is [is_empty s]. *)
Definition is_empty (s : jsstring) : bool :=
  match s with [] => true | _ :: _ => false end.

(** The code units [String.prototype.trim] strips: WhiteSpace and
    LineTerminator of ECMA-262. *)
Definition is_js_whitespace (c : N) : bool :=
  (((9 <=? c) && (c <=? 13)) || (c =? 32) || (c =? 160) || (c =? 5760)
   || ((8192 <=? c) && (c <=? 8202)) || (c =? 8232) || (c =? 8233)
   || (c =? 8239) || (c =? 8287) || (c =? 12288) || (c =? 65279))%N.

Fixpoint trimStart (s : jsstring) : jsstring :=
  match s with
  | [] => []
  | c :: r => if is_js_whitespace c then trimStart r else s
  end.

Definition trimEnd (s : jsstring) : jsstring := rev (trimStart (rev s)).

Definition trim (s : jsstring) : jsstring := trimEnd (trimStart s).

(** Decimal rendering of a counter, as template literals do. *)
Definition decimal (n : N) : jsstring :=
  js (NilEmpty.string_of_uint (N.to_uint n)).

(* ------------------------------------------------------------------ *)
(** *** Numbers *)

(** Finite values are exact rationals; there is no negative zero. *)
Inductive jsnum : Type :=
| Fin (q : Q)
| PosInf
| NegInf
| NaN.

Definition inf_of_sign (c : comparison) : jsnum :=
  match c with Gt => PosInf | Lt => NegInf | Eq => NaN end.

(** [a - b], [a / b] on finite operands (pointer and layout coordinates
    are finite). A zero divisor gives an infinity, or NaN for [0 / 0]. *)
Definition js_sub (a b : Q) : Q := (a - b)%Q.

Definition js_div (a b : Q) : jsnum :=
  if Qeq_bool b 0 then inf_of_sign (a ?= 0)%Q else Fin (a / b)%Q.

Definition js_mul (a b : jsnum) : jsnum :=
  match a, b with
  | NaN, _ | _, NaN => NaN
  | Fin x, Fin y => Fin (x * y)%Q
  | PosInf, Fin y | Fin y, PosInf => inf_of_sign (y ?= 0)%Q
  | NegInf, Fin y | Fin y, NegInf => inf_of_sign (CompOpp (y ?= 0)%Q)
  | PosInf, PosInf | NegInf, NegInf => PosInf
  | PosInf, NegInf | NegInf, PosInf => NegInf
  end.

(** [Math.max] and [Math.min]: NaN if either argument is NaN. *)
Definition Math_max (a b : jsnum) : jsnum :=
  match a, b with
  | NaN, _ | _, NaN => NaN
  | PosInf, _ | _, PosInf => PosInf
  | NegInf, x | x, NegInf => x
  | Fin x, Fin y => if Qle_bool x y then Fin y else Fin x
  end.

Definition Math_min (a b : jsnum) : jsnum :=
  match a, b with
  | NaN, _ | _, NaN => NaN
  | NegInf, _ | _, NegInf => NegInf
  | PosInf, x | x, PosInf => x
  | Fin x, Fin y => if Qle_bool x y then Fin x else Fin y
  end.

(* ------------------------------------------------------------------ *)
(** *** Exceptions *)

Inductive exn : Type :=
| SyntaxError
| TypeError.

Inductive result (A : Type) : Type :=
| Ok (a : A)
| Throw (e : exn).

Arguments Ok {A} a.
Arguments Throw {A} e.

End JS.

Import JS.

(* ================================================================== *)
(** ** JSON values, [JSON.stringify] and [JSON.parse] *)
(* ================================================================== *)

Module JSON.

(** What [JSON.parse] can return. A number is kept as its literal text
    (no arithmetic is ever done on a parsed number here); an object is the
    list of its own properties in enumeration order. *)
#[warnings="-register-all"]
Inductive jsval : Type :=
| JNull
| JBool (b : bool)
| JNum (literal : jsstring)
| JStr (s : jsstring)
| JArr (items : list jsval)
| JObj (fields : list (jsstring * jsval)).

(* ------------------------------------------------------------------ *)
(** *** Serialisation *)

Definition hex_digit (d : N) : N :=
  (if d <? 10 then 48 + d else 87 + d)%N.

(** [\uXXXX] with lower-case digits (UnicodeEscape). *)
Definition unicode_escape (c : N) : jsstring :=
  [92; 117; hex_digit (c / 4096 mod 16); hex_digit (c / 256 mod 16);
   hex_digit (c / 16 mod 16); hex_digit (c mod 16)]%N.

Definition is_high_surrogate (c : N) : bool := ((55296 <=? c) && (c <=? 56319))%N.
Definition is_low_surrogate (c : N) : bool := ((56320 <=? c) && (c <=? 57343))%N.

(** One code unit that is not half of a well-formed pair. *)
Definition quote_unit (c : N) : jsstring :=
  (if c =? 8 then [92; 98]
   else if c =? 9 then [92; 116]
   else if c =? 10 then [92; 110]
   else if c =? 12 then [92; 102]
   else if c =? 13 then [92; 114]
   else if c =? 34 then [92; 34]
   else if c =? 92 then [92; 92]
   else if (c <? 32) || is_high_surrogate c || is_low_surrogate c
        then unicode_escape c
   else [c])%N.

(** QuoteJSONString walks the code points of the string: a surrogate pair
    is copied, a lone surrogate is escaped. *)
Fixpoint quote_body (s : jsstring) : jsstring :=
  match s with
  | [] => []
  | c :: r =>
      if is_high_surrogate c then
        match r with
        | d :: r' =>
            if is_low_surrogate d then c :: d :: quote_body r'
            else quote_unit c ++ quote_body r
        | [] => quote_unit c
        end
      else quote_unit c ++ quote_body r
  end.

Definition quote (s : jsstring) : jsstring :=
  [34%N] ++ quote_body s ++ [34%N].

(** The elements of an array, or the members of an object, separated by
    commas. *)
Fixpoint join (parts : list jsstring) : jsstring :=
  match parts with
  | [] => []
  | [x] => x
  | x :: rest => x ++ [44%N] ++ join rest
  end.

Fixpoint stringify (v : jsval) : jsstring :=
  match v with
  | JNull => js "null"
  | JBool true => js "true"
  | JBool false => js "false"
  | JNum literal => literal
  | JStr s => quote s
  | JArr items => [91%N] ++ join (List.map stringify items) ++ [93%N]
  | JObj fields =>
      [123%N]
      ++ join (List.map (fun f => quote (fst f) ++ [58%N] ++ stringify (snd f)) fields)
      ++ [125%N]
  end.

(* ------------------------------------------------------------------ *)
(** *** Objects as [JSON.parse] builds them *)

(** The array index a property key denotes, if any: a canonical decimal
    string below [2^32 - 1]. Such keys are enumerated first, in
    ascending order. *)
Fixpoint digits_value (acc : N) (s : jsstring) : option N :=
  match s with
  | [] => Some acc
  | c :: r =>
      if ((48 <=? c) && (c <=? 57))%N
      then digits_value (acc * 10 + (c - 48))%N r
      else None
  end.

Definition array_index (k : jsstring) : option N :=
  match k with
  | [] => None
  | [48%N] => Some 0%N
  | 48%N :: _ => None
  | _ =>
      if (List.length k <=? 10)%nat then
        match digits_value 0%N k with
        | Some n => if (n <? 4294967295)%N then Some n else None
        | None => None
        end
      else None
  end.

Fixpoint has_key (k : jsstring) (fields : list (jsstring * jsval)) : bool :=
  match fields with
  | [] => false
  | (k', _) :: r => str_eqb k k' || has_key k r
  end.

Fixpoint replace_key (k : jsstring) (v : jsval)
    (fields : list (jsstring * jsval)) : list (jsstring * jsval) :=
  match fields with
  | [] => []
  | (k', v') :: r =>
      if str_eqb k k' then (k', v) :: r else (k', v') :: replace_key k v r
  end.

Fixpoint insert_index (n : N) (k : jsstring) (v : jsval)
    (fields : list (jsstring * jsval)) : list (jsstring * jsval) :=
  match fields with
  | [] => [(k, v)]
  | (k', v') :: r =>
      match array_index k' with
      | Some m =>
          if (n <? m)%N then (k, v) :: (k', v') :: r
          else (k', v') :: insert_index n k v r
      | None => (k, v) :: (k', v') :: r
      end
  end.

(** CreateDataProperty: a repeated key keeps its place and takes the new
    value. *)
Definition obj_set (k : jsstring) (v : jsval)
    (fields : list (jsstring * jsval)) : list (jsstring * jsval) :=
  if has_key k fields then replace_key k v fields
  else match array_index k with
       | Some n => insert_index n k v fields
       | None => fields ++ [(k, v)]
       end.

(** Property read [o[k]]. *)
Fixpoint get_field (k : jsstring) (fields : list (jsstring * jsval)) : option jsval :=
  match fields with
  | [] => None
  | (k', v) :: r => if str_eqb k k' then Some v else get_field k r
  end.

(* ------------------------------------------------------------------ *)
(** *** Parsing

    [JSON.parse] is a single pass over the code units: a lexer mode, what
    the grammar allows next, and the stack of the containers that are
    still open. [None] stands for the SyntaxError. *)

Inductive numstate : Type :=
| NMinus | NZero | NInt | NDot | NFrac | NExp | NExpSign | NExpDigits.

Inductive lexmode : Type :=
| Idle
| InStr (acc : jsstring)                   (* reversed contents so far *)
| InEsc (acc : jsstring)                   (* after a backslash *)
| InHex (acc : jsstring) (n : nat) (v : N) (* [n] hex digits read, value [v] *)
| InNum (st : numstate) (lit : jsstring)   (* reversed literal so far *)
| InLit (rest : jsstring) (v : jsval).     (* inside true, false, null *)

Inductive expect : Type :=
| EValue          (* a value *)
| EValueOrClose   (* just after an opening bracket *)
| ECommaOrClose   (* after an element or a member *)
| EKeyOrClose     (* just after an opening brace *)
| EKey            (* after a comma in an object *)
| EColon
| EDone (v : jsval).

Inductive frame : Type :=
| FArr (items_rev : list jsval)
| FObj (fields : list (jsstring * jsval)) (key : option jsstring).

Record pstate : Type := mkP {
  pmode : lexmode;
  pexpect : expect;
  pstack : list frame
}.

Definition value_expected (e : expect) : bool :=
  match e with EValue | EValueOrClose => true | _ => false end.

Definition key_expected (e : expect) : bool :=
  match e with EKeyOrClose | EKey => true | _ => false end.

(** A complete value goes to the innermost open container. *)
Definition deliver (v : jsval) (stack : list frame) : option pstate :=
  match stack with
  | [] => Some (mkP Idle (EDone v) [])
  | FArr items :: st => Some (mkP Idle ECommaOrClose (FArr (v :: items) :: st))
  | FObj fields (Some k) :: st =>
      Some (mkP Idle ECommaOrClose (FObj (obj_set k v fields) None :: st))
  | FObj _ None :: _ => None
  end.

Definition string_done (s : jsstring) (e : expect) (stack : list frame)
    : option pstate :=
  if value_expected e then deliver (JStr s) stack
  else if key_expected e then
    match stack with
    | FObj fields None :: st => Some (mkP Idle EColon (FObj fields (Some s) :: st))
    | _ => None
    end
  else None.

Definition is_json_whitespace (c : N) : bool :=
  ((c =? 9) || (c =? 10) || (c =? 13) || (c =? 32))%N.

Definition is_digit (c : N) : bool := ((48 <=? c) && (c <=? 57))%N.

(** A code unit met between tokens. *)
Definition feed_idle (c : N) (e : expect) (stack : list frame) : option pstate :=
  if is_json_whitespace c then Some (mkP Idle e stack)
  else if (c =? 34)%N then
    if value_expected e || key_expected e then Some (mkP (InStr []) e stack)
    else None
  else if (c =? 91)%N then
    if value_expected e then Some (mkP Idle EValueOrClose (FArr [] :: stack))
    else None
  else if (c =? 123)%N then
    if value_expected e then Some (mkP Idle EKeyOrClose (FObj [] None :: stack))
    else None
  else if (c =? 93)%N then
    match e, stack with
    | (EValueOrClose | ECommaOrClose), FArr items :: st => deliver (JArr (rev items)) st
    | _, _ => None
    end
  else if (c =? 125)%N then
    match e, stack with
    | (EKeyOrClose | ECommaOrClose), FObj fields None :: st => deliver (JObj fields) st
    | _, _ => None
    end
  else if (c =? 44)%N then
    match e, stack with
    | ECommaOrClose, FArr _ :: _ => Some (mkP Idle EValue stack)
    | ECommaOrClose, FObj _ None :: _ => Some (mkP Idle EKey stack)
    | _, _ => None
    end
  else if (c =? 58)%N then
    match e with
    | EColon => Some (mkP Idle EValue stack)
    | _ => None
    end
  else if value_expected e then
    if (c =? 45)%N then Some (mkP (InNum NMinus [c]) e stack)
    else if (c =? 48)%N then Some (mkP (InNum NZero [c]) e stack)
    else if is_digit c then Some (mkP (InNum NInt [c]) e stack)
    else if (c =? 116)%N then Some (mkP (InLit (js "rue") (JBool true)) e stack)
    else if (c =? 102)%N then Some (mkP (InLit (js "alse") (JBool false)) e stack)
    else if (c =? 110)%N then Some (mkP (InLit (js "ull") JNull) e stack)
    else None
  else None.

Definition hex_value (c : N) : option N :=
  (if is_digit c then Some (c - 48)
   else if (97 <=? c) && (c <=? 102) then Some (c - 87)
   else if (65 <=? c) && (c <=? 70) then Some (c - 55)
   else None)%N.

Definition escape_value (c : N) : option N :=
  (if c =? 34 then Some 34
   else if c =? 92 then Some 92
   else if c =? 47 then Some 47
   else if c =? 98 then Some 8
   else if c =? 102 then Some 12
   else if c =? 110 then Some 10
   else if c =? 114 then Some 13
   else if c =? 116 then Some 9
   else None)%N.

Definition num_step (st : numstate) (c : N) : option numstate :=
  let exp_mark := ((c =? 101) || (c =? 69))%N in
  match st with
  | NMinus => if (c =? 48)%N then Some NZero
              else if is_digit c then Some NInt else None
  | NZero => if (c =? 46)%N then Some NDot
             else if exp_mark then Some NExp else None
  | NInt => if is_digit c then Some NInt
            else if (c =? 46)%N then Some NDot
            else if exp_mark then Some NExp else None
  | NDot => if is_digit c then Some NFrac else None
  | NFrac => if is_digit c then Some NFrac
             else if exp_mark then Some NExp else None
  | NExp => if ((c =? 43) || (c =? 45))%N then Some NExpSign
            else if is_digit c then Some NExpDigits else None
  | NExpSign => if is_digit c then Some NExpDigits else None
  | NExpDigits => if is_digit c then Some NExpDigits else None
  end.

Definition num_accepting (st : numstate) : bool :=
  match st with
  | NZero | NInt | NFrac | NExpDigits => true
  | _ => false
  end.

Definition feed (c : N) (p : pstate) : option pstate :=
  let e := pexpect p in
  let stack := pstack p in
  match pmode p with
  | Idle => feed_idle c e stack
  | InStr acc =>
      if (c =? 34)%N then string_done (rev acc) e stack
      else if (c =? 92)%N then Some (mkP (InEsc acc) e stack)
      else if (c <? 32)%N then None
      else Some (mkP (InStr (c :: acc)) e stack)
  | InEsc acc =>
      if (c =? 117)%N then Some (mkP (InHex acc 0 0%N) e stack)
      else match escape_value c with
           | Some u => Some (mkP (InStr (u :: acc)) e stack)
           | None => None
           end
  | InHex acc n v =>
      match hex_value c with
      | Some d =>
          let v' := (v * 16 + d)%N in
          if (n =? 3)%nat then Some (mkP (InStr (v' :: acc)) e stack)
          else Some (mkP (InHex acc (S n) v') e stack)
      | None => None
      end
  | InNum st lit =>
      match num_step st c with
      | Some st' => Some (mkP (InNum st' (c :: lit)) e stack)
      | None =>
          if num_accepting st then
            match deliver (JNum (rev lit)) stack with
            | Some p' => feed_idle c (pexpect p') (pstack p')
            | None => None
            end
          else None
      end
  | InLit rest v =>
      match rest with
      | [] => None
      | x :: rest' =>
          if (c =? x)%N then
            match rest' with
            | [] => deliver v stack
            | _ :: _ => Some (mkP (InLit rest' v) e stack)
            end
          else None
      end
  end.

Fixpoint feed_all (s : jsstring) (p : pstate) : option pstate :=
  match s with
  | [] => Some p
  | c :: r =>
      match feed c p with
      | Some p' => feed_all r p'
      | None => None
      end
  end.

(** End of input: the text must be exactly one value. *)
Definition finish (p : pstate) : option jsval :=
  match pmode p with
  | Idle => match pexpect p with EDone v => Some v | _ => None end
  | InNum st lit =>
      if num_accepting st then
        match deliver (JNum (rev lit)) (pstack p) with
        | Some p' => match pexpect p' with EDone v => Some v | _ => None end
        | None => None
        end
      else None
  | _ => None
  end.

Definition JSON_parse (text : jsstring) : result jsval :=
  match feed_all text (mkP Idle EValue []) with
  | Some p =>
      match finish p with
      | Some v => Ok v
      | None => Throw SyntaxError
      end
  | None => Throw SyntaxError
  end.

Definition JSON_stringify (v : jsval) : jsstring := stringify v.

End JSON.

Import JSON.

(* ================================================================== *)
(** ** The editor session *)
(* ================================================================== *)

Module Editor.

(** [type MermaidTheme = 'default' | 'dark' | 'forest' | 'neutral' | 'base'] *)
Inductive MermaidTheme : Type :=
| ThDefault | ThDark | ThForest | ThNeutral | ThBase.

Definition theme_eqb (a b : MermaidTheme) : bool :=
  match a, b with
  | ThDefault, ThDefault | ThDark, ThDark | ThForest, ThForest
  | ThNeutral, ThNeutral | ThBase, ThBase => true
  | _, _ => false
  end.

(** The page theme of next-themes and the theme of the operating system. *)
Inductive UiTheme : Type := Light | Dark | System.
Inductive SystemTheme : Type := SysLight | SysDark.

(** What a [renderDiagram] closure captured: the dependencies
    [[code, mounted]] of its [useCallback]. *)
Record Closure : Type := mkClosure {
  cl_code : jsstring;
  cl_mounted : bool
}.

(** The one debounce timer: when it is due and what it will call. *)
Record Timer : Type := mkTimer {
  deadline : N;
  callback : Closure
}.

(** A call of [mermaid.render] that has not settled yet. *)
Record RenderCall : Type := mkCall {
  call_id : N;
  call_code : jsstring;
  call_theme : MermaidTheme
}.

(** How a call of [mermaid.render] settles: the promise resolves with an
    svg, or rejects with a value whose [message] may be missing. *)
Inductive RenderOutcome : Type :=
| Rendered (svg : jsstring)
| Rejected (message : option jsstring).

(** The part of [getBoundingClientRect()] that [handleMouseMove] reads. *)
Record DOMRect : Type := mkRect {
  left : Q;
  width : Q
}.

Record State : Type := mkState {
  (* useState cells *)
  code : jsstring;
  mermaidTheme : MermaidTheme;
  zoom : Z;
  error : jsstring;
  isFullscreen : bool;
  savedDiagrams : jsval;
  mounted : bool;
  showSidebar : bool;
  editorWidth : jsnum;
  isResizing : bool;
  (* refs: idCounter.current, and the innerHTML of diagramRef.current *)
  idCounter : N;
  diagramHTML : jsstring;
  (* useTheme() *)
  theme : UiTheme;
  systemTheme : SystemTheme;
  (* the browser: the theme passed to mermaid.initialize last, the clock,
     the pending setTimeout, the renders in flight, the item
     'mermaid-diagrams' of localStorage, document.fullscreenElement *)
  mermaidConfig : MermaidTheme;
  now : N;
  timer : option Timer;
  inflight : list RenderCall;
  localStorage : option jsstring;
  fullscreenElement : bool
}.

(** Functional update of one field, one function for each field. *)
Definition set_code (x : jsstring) (s : State) : State :=
  mkState x (mermaidTheme s) (zoom s) (error s) (isFullscreen s)
    (savedDiagrams s) (mounted s) (showSidebar s) (editorWidth s)
    (isResizing s) (idCounter s) (diagramHTML s) (theme s) (systemTheme s)
    (mermaidConfig s) (now s) (timer s) (inflight s) (localStorage s)
    (fullscreenElement s).

Definition set_mermaidTheme (x : MermaidTheme) (s : State) : State :=
  mkState (code s) x (zoom s) (error s) (isFullscreen s) (savedDiagrams s)
    (mounted s) (showSidebar s) (editorWidth s) (isResizing s) (idCounter s)
    (diagramHTML s) (theme s) (systemTheme s) (mermaidConfig s) (now s)
    (timer s) (inflight s) (localStorage s) (fullscreenElement s).

Definition set_zoom (x : Z) (s : State) : State :=
  mkState (code s) (mermaidTheme s) x (error s) (isFullscreen s)
    (savedDiagrams s) (mounted s) (showSidebar s) (editorWidth s)
    (isResizing s) (idCounter s) (diagramHTML s) (theme s) (systemTheme s)
    (mermaidConfig s) (now s) (timer s) (inflight s) (localStorage s)
    (fullscreenElement s).

Definition set_error (x : jsstring) (s : State) : State :=
  mkState (code s) (mermaidTheme s) (zoom s) x (isFullscreen s)
    (savedDiagrams s) (mounted s) (showSidebar s) (editorWidth s)
    (isResizing s) (idCounter s) (diagramHTML s) (theme s) (systemTheme s)
    (mermaidConfig s) (now s) (timer s) (inflight s) (localStorage s)
    (fullscreenElement s).

Definition set_isFullscreen (x : bool) (s : State) : State :=
  mkState (code s) (mermaidTheme s) (zoom s) (error s) x (savedDiagrams s)
    (mounted s) (showSidebar s) (editorWidth s) (isResizing s) (idCounter s)
    (diagramHTML s) (theme s) (systemTheme s) (mermaidConfig s) (now s)
    (timer s) (inflight s) (localStorage s) (fullscreenElement s).

Definition set_savedDiagrams (x : jsval) (s : State) : State :=
  mkState (code s) (mermaidTheme s) (zoom s) (error s) (isFullscreen s) x
    (mounted s) (showSidebar s) (editorWidth s) (isResizing s) (idCounter s)
    (diagramHTML s) (theme s) (systemTheme s) (mermaidConfig s) (now s)
    (timer s) (inflight s) (localStorage s) (fullscreenElement s).

Definition set_mounted (x : bool) (s : State) : State :=
  mkState (code s) (mermaidTheme s) (zoom s) (error s) (isFullscreen s)
    (savedDiagrams s) x (showSidebar s) (editorWidth s) (isResizing s)
    (idCounter s) (diagramHTML s) (theme s) (systemTheme s) (mermaidConfig
    s) (now s) (timer s) (inflight s) (localStorage s) (fullscreenElement s).

Definition set_showSidebar (x : bool) (s : State) : State :=
  mkState (code s) (mermaidTheme s) (zoom s) (error s) (isFullscreen s)
    (savedDiagrams s) (mounted s) x (editorWidth s) (isResizing s)
    (idCounter s) (diagramHTML s) (theme s) (systemTheme s) (mermaidConfig
    s) (now s) (timer s) (inflight s) (localStorage s) (fullscreenElement s).

Definition set_editorWidth (x : jsnum) (s : State) : State :=
  mkState (code s) (mermaidTheme s) (zoom s) (error s) (isFullscreen s)
    (savedDiagrams s) (mounted s) (showSidebar s) x (isResizing s)
    (idCounter s) (diagramHTML s) (theme s) (systemTheme s) (mermaidConfig
    s) (now s) (timer s) (inflight s) (localStorage s) (fullscreenElement s).

Definition set_isResizing (x : bool) (s : State) : State :=
  mkState (code s) (mermaidTheme s) (zoom s) (error s) (isFullscreen s)
    (savedDiagrams s) (mounted s) (showSidebar s) (editorWidth s) x
    (idCounter s) (diagramHTML s) (theme s) (systemTheme s) (mermaidConfig
    s) (now s) (timer s) (inflight s) (localStorage s) (fullscreenElement s).

Definition set_idCounter (x : N) (s : State) : State :=
  mkState (code s) (mermaidTheme s) (zoom s) (error s) (isFullscreen s)
    (savedDiagrams s) (mounted s) (showSidebar s) (editorWidth s)
    (isResizing s) x (diagramHTML s) (theme s) (systemTheme s)
    (mermaidConfig s) (now s) (timer s) (inflight s) (localStorage s)
    (fullscreenElement s).

Definition set_diagramHTML (x : jsstring) (s : State) : State :=
  mkState (code s) (mermaidTheme s) (zoom s) (error s) (isFullscreen s)
    (savedDiagrams s) (mounted s) (showSidebar s) (editorWidth s)
    (isResizing s) (idCounter s) x (theme s) (systemTheme s) (mermaidConfig
    s) (now s) (timer s) (inflight s) (localStorage s) (fullscreenElement s).

Definition set_theme (x : UiTheme) (s : State) : State :=
  mkState (code s) (mermaidTheme s) (zoom s) (error s) (isFullscreen s)
    (savedDiagrams s) (mounted s) (showSidebar s) (editorWidth s)
    (isResizing s) (idCounter s) (diagramHTML s) x (systemTheme s)
    (mermaidConfig s) (now s) (timer s) (inflight s) (localStorage s)
    (fullscreenElement s).

Definition set_systemTheme (x : SystemTheme) (s : State) : State :=
  mkState (code s) (mermaidTheme s) (zoom s) (error s) (isFullscreen s)
    (savedDiagrams s) (mounted s) (showSidebar s) (editorWidth s)
    (isResizing s) (idCounter s) (diagramHTML s) (theme s) x (mermaidConfig
    s) (now s) (timer s) (inflight s) (localStorage s) (fullscreenElement s).

Definition set_mermaidConfig (x : MermaidTheme) (s : State) : State :=
  mkState (code s) (mermaidTheme s) (zoom s) (error s) (isFullscreen s)
    (savedDiagrams s) (mounted s) (showSidebar s) (editorWidth s)
    (isResizing s) (idCounter s) (diagramHTML s) (theme s) (systemTheme s) x
    (now s) (timer s) (inflight s) (localStorage s) (fullscreenElement s).

Definition set_now (x : N) (s : State) : State :=
  mkState (code s) (mermaidTheme s) (zoom s) (error s) (isFullscreen s)
    (savedDiagrams s) (mounted s) (showSidebar s) (editorWidth s)
    (isResizing s) (idCounter s) (diagramHTML s) (theme s) (systemTheme s)
    (mermaidConfig s) x (timer s) (inflight s) (localStorage s)
    (fullscreenElement s).

Definition set_timer (x : option Timer) (s : State) : State :=
  mkState (code s) (mermaidTheme s) (zoom s) (error s) (isFullscreen s)
    (savedDiagrams s) (mounted s) (showSidebar s) (editorWidth s)
    (isResizing s) (idCounter s) (diagramHTML s) (theme s) (systemTheme s)
    (mermaidConfig s) (now s) x (inflight s) (localStorage s)
    (fullscreenElement s).

Definition set_inflight (x : list RenderCall) (s : State) : State :=
  mkState (code s) (mermaidTheme s) (zoom s) (error s) (isFullscreen s)
    (savedDiagrams s) (mounted s) (showSidebar s) (editorWidth s)
    (isResizing s) (idCounter s) (diagramHTML s) (theme s) (systemTheme s)
    (mermaidConfig s) (now s) (timer s) x (localStorage s)
    (fullscreenElement s).

Definition set_localStorage (x : option jsstring) (s : State) : State :=
  mkState (code s) (mermaidTheme s) (zoom s) (error s) (isFullscreen s)
    (savedDiagrams s) (mounted s) (showSidebar s) (editorWidth s)
    (isResizing s) (idCounter s) (diagramHTML s) (theme s) (systemTheme s)
    (mermaidConfig s) (now s) (timer s) (inflight s) x (fullscreenElement s).

Definition set_fullscreenElement (x : bool) (s : State) : State :=
  mkState (code s) (mermaidTheme s) (zoom s) (error s) (isFullscreen s)
    (savedDiagrams s) (mounted s) (showSidebar s) (editorWidth s)
    (isResizing s) (idCounter s) (diagramHTML s) (theme s) (systemTheme s)
    (mermaidConfig s) (now s) (timer s) (inflight s) (localStorage s) x.

(** [templates.flowchart], the initial text. *)
Definition templates_flowchart : jsstring := js "graph TD
    A[Start] --> B{Decision}
    B -->|Yes| C[Process 1]
    B -->|No| D[Process 2]
    C --> E[End]
    D --> E".

(** The [useState] initialisers, an idle browser, and whatever the page
    theme and the stored item are when the page opens. *)
Definition initial (th : UiTheme) (sys : SystemTheme)
    (stored : option jsstring) : State :=
  {| code := templates_flowchart; mermaidTheme := ThDefault; zoom := 100;
     error := []; isFullscreen := false; savedDiagrams := JArr [];
     mounted := false; showSidebar := true; editorWidth := Fin 50;
     isResizing := false; idCounter := 0; diagramHTML := [];
     theme := th; systemTheme := sys; mermaidConfig := ThDefault;
     now := 0; timer := None; inflight := []; localStorage := stored;
     fullscreenElement := false |}.

(** [const isDark = currentTheme === 'dark'] *)
Definition isDark (s : State) : bool :=
  match theme s with
  | System => match systemTheme s with SysDark => true | SysLight => false end
  | Dark => true
  | Light => false
  end.

(** [diagramRef.current] is the div of the preview, which the JSX renders
    only when the component is mounted and [error] is the empty string. *)
Definition diagramRef_current (s : State) : bool :=
  mounted s && is_empty (error s).

(** [setError]: a non-empty error takes the diagram div, and with it the
    svg it held, out of the page. *)
Definition setError (e : jsstring) (s : State) : State :=
  set_diagramHTML (if is_empty e then diagramHTML s else [])
    (set_error e s).

(** [err?.message || 'Invalid Mermaid syntax'] *)
Definition message_of (m : option jsstring) : jsstring :=
  match m with
  | Some t => if is_empty t then js "Invalid Mermaid syntax" else t
  | None => js "Invalid Mermaid syntax"
  end.

(** [`mermaid-diagram-${idCounter.current++}`] *)
Definition diagram_id (n : N) : jsstring := js "mermaid-diagram-" ++ decimal n.

(* ------------------------------------------------------------------ *)
(** *** Effects *)

(** The debounce effect: [clearTimeout] of the previous timer, then
    [setTimeout(() => renderDiagram(), 500)]. *)
Definition arm (s : State) : State :=
  set_timer (Some (mkTimer (now s + 500) (mkClosure (code s) (mounted s)))) s.

(** The effect that keeps the diagram theme in step with the page theme. *)
Definition sync_theme (s : State) : State :=
  if mounted s then
    if isDark s && theme_eqb (mermaidTheme s) ThDefault then set_mermaidTheme ThDark s
    else if negb (isDark s) && theme_eqb (mermaidTheme s) ThDark then set_mermaidTheme ThDefault s
    else s
  else s.

(** The effect that calls [mermaid.initialize]. *)
Definition mermaid_initialize (s : State) : State :=
  if mounted s then set_mermaidConfig (mermaidTheme s) s else s.

(** The effect that reads the saved diagrams. *)
Definition load_saved (s : State) : State :=
  if mounted s then
    match localStorage s with
    | None => s
    | Some saved =>
        if is_empty saved then s
        else match JSON_parse saved with
             | Ok v => set_savedDiagrams v s
             | Throw _ => s      (* console.error *)
             end
    end
  else s.

(** After a handler took the state from [old] to [new], React runs the
    effects whose dependencies changed, in the order of the source. The
    theme effect may set [mermaidTheme], which runs the later ones. *)
Definition commit (old new : State) : State :=
  let mounted_changed := negb (Bool.eqb (mounted old) (mounted new)) in
  let s1 :=
    if negb (Bool.eqb (isDark old) (isDark new)) || mounted_changed
    then sync_theme new else new in
  let theme_changed := negb (theme_eqb (mermaidTheme old) (mermaidTheme s1)) in
  let code_changed := negb (str_eqb (code old) (code s1)) in
  let s2 := if theme_changed || mounted_changed then mermaid_initialize s1 else s1 in
  let s3 := if code_changed || theme_changed || mounted_changed then arm s2 else s2 in
  if mounted_changed then load_saved s3 else s3.

(* ------------------------------------------------------------------ *)
(** *** Handlers that do not render *)

Definition handleZoomIn (s : State) : State := set_zoom (Z.min (zoom s + 10) 200) s.
Definition handleZoomOut (s : State) : State := set_zoom (Z.max (zoom s - 10) 50) s.

(** [toggleFullscreen]: asks the host, which grants the request or not;
    a rejected promise is caught and logged. *)
Definition toggleFullscreen (granted : bool) (s : State) : State :=
  if negb (mounted s) then s
  else if negb (isFullscreen s) then
    (if granted then set_fullscreenElement true s else s)
  else set_fullscreenElement false s.

Definition handleFullscreenChange (s : State) : State :=
  set_isFullscreen (fullscreenElement s) s.

Definition handleMouseDown (s : State) : State := set_isResizing true s.

Definition handleMouseMove (clientX : Q) (containerRect : DOMRect) (s : State) : State :=
  if negb (isResizing s) || negb (mounted s) then s
  else
    let newWidth :=
      js_mul (js_div (js_sub clientX (left containerRect)) (width containerRect))
             (Fin 100) in
    let constrainedWidth := Math_min (Math_max newWidth (Fin 20)) (Fin 80) in
    set_editorWidth constrainedWidth s.

Definition handleMouseUp (s : State) : State := set_isResizing false s.

(** The code points of a string, each as a string: what spreading a
    string yields. *)
Fixpoint code_points (s : jsstring) : list jsval :=
  match s with
  | [] => []
  | c :: r =>
      if is_high_surrogate c then
        match r with
        | d :: r' =>
            if is_low_surrogate d then JStr [c; d] :: code_points r'
            else JStr [c] :: code_points r
        | [] => [JStr [c]]
        end
      else JStr [c] :: code_points r
  end.

(** [[...v]] *)
Definition spread (v : jsval) : result (list jsval) :=
  match v with
  | JArr items => Ok items
  | JStr s => Ok (code_points s)
  | _ => Throw TypeError
  end.

(** [{ name, code }] *)
Definition diagram (name text : jsstring) : jsval :=
  JObj [(js "name", JStr name); (js "code", JStr text)].

(** [saveDiagram]; [answer] is what [prompt] returned. An exception
    leaves the handler before any state is set. *)
Definition saveDiagram (answer : option jsstring) (s : State) : State :=
  match answer with
  | None => s
  | Some name =>
      if is_empty name then s
      else match spread (savedDiagrams s) with
           | Ok items =>
               let newDiagrams := JArr (items ++ [diagram name (code s)]) in
               set_localStorage (Some (JSON_stringify newDiagrams))
                 (set_savedDiagrams newDiagrams s)
           | Throw _ => s
           end
  end.

(** [l.filter((_, i) => i !== index)], counting from [i]. *)
Fixpoint filter_index (i index : nat) (l : list jsval) : list jsval :=
  match l with
  | [] => []
  | x :: r =>
      if (i =? index)%nat then filter_index (S i) index r
      else x :: filter_index (S i) index r
  end.

(** [deleteDiagram]; [confirmed] is what [confirm] returned. *)
Definition deleteDiagram (index : nat) (confirmed : bool) (s : State) : State :=
  if negb confirmed then s
  else match savedDiagrams s with
       | JArr items =>
           let newDiagrams := JArr (filter_index 0 index items) in
           set_localStorage (Some (JSON_stringify newDiagrams))
             (set_savedDiagrams newDiagrams s)
       | _ => s
       end.

(* ------------------------------------------------------------------ *)
(** *** The render pipeline *)

Section Pipeline.

(** [mermaid.render(id, text)] under the configured theme. *)
Variable mermaid_render : jsstring -> jsstring -> MermaidTheme -> RenderOutcome.

(** The [message] of the TypeError the browser raises for
    [null.innerHTML = svg]. *)
Variable null_message : jsstring.

(** [renderDiagram] up to its [await]: the guard, [setError('')], a fresh
    id, and the call of the renderer, which is now in flight. *)
Definition renderDiagram (cl : Closure) (s : State) : State :=
  if negb (diagramRef_current s) || is_empty (trim (cl_code cl)) || negb (cl_mounted cl)
  then s
  else
    let s1 := setError [] s in
    let id := idCounter s1 in
    let s2 := set_idCounter (id + 1) s1 in
    set_inflight (inflight s2 ++ [mkCall id (cl_code cl) (mermaidConfig s2)]) s2.

(** [renderDiagram] after its [await]: the svg goes into the diagram div,
    and whatever is thrown, by the renderer or by the assignment to a div
    that is gone, ends in [setError]. The two style assignments on the
    svg element are left out. *)
Definition resume (c : RenderCall) (s : State) : State :=
  match mermaid_render (diagram_id (call_id c)) (call_code c) (call_theme c) with
  | Rendered svg =>
      if diagramRef_current s then set_diagramHTML svg s
      else setError (message_of (Some null_message)) s
  | Rejected m => setError (message_of m) s
  end.

(** Takes the call with target id [k] out of the renders in flight. *)
Fixpoint take_call (k : N) (l : list RenderCall) : option (RenderCall * list RenderCall) :=
  match l with
  | [] => None
  | c :: r =>
      if (call_id c =? k)%N then Some (c, r)
      else match take_call k r with
           | Some (c', r') => Some (c', c :: r')
           | None => None
           end
  end.

(** The render with target id [k] settles. *)
Definition settle (k : N) (s : State) : State :=
  match take_call k (inflight s) with
  | Some (c, rest) => resume c (set_inflight rest s)
  | None => s
  end.

(** [dt] milliseconds pass; a timer that is due by then fires once. *)
Definition advance (dt : N) (s : State) : State :=
  let s1 := set_now (now s + dt) s in
  match timer s1 with
  | Some t =>
      if (deadline t <=? now s1)%N
      then renderDiagram (callback t) (set_timer None s1)
      else s1
  | None => s1
  end.

(* ------------------------------------------------------------------ *)
(** *** Events *)

Inductive Event : Type :=
| Mount                                      (* setMounted(true) *)
| SetCode (text : jsstring)                  (* textarea, template, loadDiagram *)
| SetMermaidTheme (th : MermaidTheme)        (* the select *)
| SetTheme (th : UiTheme)                    (* the three page theme buttons *)
| SystemThemeChange (sys : SystemTheme)
| Wait (dt : N)
| RenderSettled (id : N)
| ZoomIn
| ZoomOut
| ToggleFullscreen (granted : bool)
| HostLeavesFullscreen                       (* the Esc key *)
| FullscreenChange                           (* the host's notification *)
| MouseDown
| MouseMove (clientX : Q) (containerRect : DOMRect)
| MouseUp
| SaveDiagram (answer : option jsstring)
| DeleteDiagram (index : nat) (confirmed : bool)
| ToggleSidebar
| ExportPNG
| ExportSVG
| CopyToClipboard.

Definition step (e : Event) (s : State) : State :=
  match e with
  | Mount =>
      (* the first commit arms the timer with a closure that still has
         [mounted = false]; the commit after setMounted(true) replaces it *)
      if mounted s then s else commit (arm s) (set_mounted true (arm s))
  | SetCode text => commit s (set_code text s)
  | SetMermaidTheme th => commit s (set_mermaidTheme th s)
  | SetTheme th => commit s (set_theme th s)
  | SystemThemeChange sys => commit s (set_systemTheme sys s)
  | Wait dt => advance dt s
  | RenderSettled id => settle id s
  | ZoomIn => handleZoomIn s
  | ZoomOut => handleZoomOut s
  | ToggleFullscreen granted => toggleFullscreen granted s
  | HostLeavesFullscreen => set_fullscreenElement false s
  | FullscreenChange => handleFullscreenChange s
  | MouseDown => handleMouseDown s
  | MouseMove x rect =>
      (* the listeners are on the document only while resizing *)
      if isResizing s then handleMouseMove x rect s else s
  | MouseUp => if isResizing s then handleMouseUp s else s
  | SaveDiagram answer => saveDiagram answer s
  | DeleteDiagram index confirmed => deleteDiagram index confirmed s
  | ToggleSidebar => set_showSidebar (negb (showSidebar s)) s
  | ExportPNG | ExportSVG | CopyToClipboard =>
      (* a download, or an alert: no state of the session is involved *)
      s
  end.

Fixpoint run (es : list Event) (s : State) : State :=
  match es with
  | [] => s
  | e :: es' => run es' (step e s)
  end.

End Pipeline.

End Editor.

Import Editor.

(* ================================================================== *)
(** ** The rest of the component *)
(* ================================================================== *)

(** What the user gets from a handler besides a new state. *)
Inductive Effect : Type :=
| Download (filename href : jsstring)   (* link.download, link.href, click *)
| Alert (message : jsstring)
| ConsoleError (label : jsstring).

(** The diagram div as html-to-image sees it: its content and the
    [scale(zoom / 100)] of its style. *)
Record DiagramNode : Type := mkNode {
  innerHTML : jsstring;
  scale_percent : Z
}.

(** The options object of [toPng] and [toSvg]. *)
Record ExportOptions : Type := mkOptions {
  quality : option Z;
  pixelRatio : option Z;
  backgroundColor : jsstring
}.

Definition diagram_node (s : State) : option DiagramNode :=
  if diagramRef_current s then Some (mkNode (diagramHTML s) (zoom s)) else None.

(** [isDark ? '#1e293b' : '#ffffff'] *)
Definition export_background (s : State) : jsstring :=
  if isDark s then js "#1e293b" else js "#ffffff".

(** [exportToPNG]; [toPng] is the rasteriser of html-to-image. *)
Definition exportToPNG (toPng : DiagramNode -> ExportOptions -> result jsstring)
    (s : State) : list Effect :=
  match diagram_node s with
  | None => []
  | Some node =>
      match toPng node (mkOptions (Some 1%Z) (Some 2%Z) (export_background s)) with
      | Ok dataUrl => [Download (js "mermaid-diagram.png") dataUrl]
      | Throw _ =>
          [ConsoleError (js "Export to PNG failed:");
           Alert (js "Export failed. Please try again.")]
      end
  end.

(** [exportToSVG] *)
Definition exportToSVG (toSvg : DiagramNode -> ExportOptions -> result jsstring)
    (s : State) : list Effect :=
  match diagram_node s with
  | None => []
  | Some node =>
      match toSvg node (mkOptions None None (export_background s)) with
      | Ok dataUrl => [Download (js "mermaid-diagram.svg") dataUrl]
      | Throw _ =>
          [ConsoleError (js "Export to SVG failed:");
           Alert (js "Export failed. Please try again.")]
      end
  end.

(** The label of a template button:
    [name.replace(/([A-Z])/g, ' $1').trim()]. *)
Definition is_capital (c : N) : bool := ((65 <=? c) && (c <=? 90))%N.

Fixpoint space_capitals (s : jsstring) : jsstring :=
  match s with
  | [] => []
  | c :: r =>
      if is_capital c then 32%N :: c :: space_capitals r
      else c :: space_capitals r
  end.

Definition template_label (name : jsstring) : jsstring :=
  trim (space_capitals name).

(** [s.split(sep)] for a separator of one code unit. *)
Fixpoint split_on (sep : N) (s : jsstring) : list jsstring :=
  match s with
  | [] => [[]]
  | c :: r =>
      if (c =? sep)%N then [] :: split_on sep r
      else match split_on sep r with
           | piece :: rest => (c :: piece) :: rest
           | [] => [[c]]
           end
  end.

(** The footer of the editor:
    [Lines: {code.split('\n').length} | Characters: {code.length}]. *)
Definition line_count (text : jsstring) : nat := List.length (split_on 10 text).
Definition character_count (text : jsstring) : nat := List.length text.

(** [loadDiagram]: [setCode(diagramCode)], and the effects that follow. *)
Definition loadDiagram (diagramCode : jsstring) (s : State) : State :=
  commit s (set_code diagramCode s).

(** A click on the entry at position [idx] of the saved list:
    [loadDiagram(diagram.code)]. [None] when there is no such entry, or
    when its [code] is not a string, which the type of [savedDiagrams]
    excludes. *)
Definition saved_entry_click (idx : nat) (s : State) : option State :=
  match savedDiagrams s with
  | JArr items =>
      match nth_error items idx with
      | Some (JObj fields) =>
          match get_field (js "code") fields with
          | Some (JStr diagramCode) => Some (loadDiagram diagramCode s)
          | _ => None
          end
      | _ => None
      end
  | _ => None
  end.

(* ================================================================== *)
(** ** Vocabulary of the properties *)
(* ================================================================== *)

(** A text that is empty or consists of white space only. *)
Definition whitespace_only (s : jsstring) : bool := forallb is_js_whitespace s.

(** [clamp x lo hi] on the rationals. *)
Definition clamp (x lo hi : Q) : Q :=
  if Qle_bool x lo then lo else if Qle_bool hi x then hi else x.

(** A saved diagram, and a sequence of them as the value the component
    holds in [savedDiagrams]. *)
Record SavedDiagram : Type := mkSaved {
  name : jsstring;
  text : jsstring
}.

Definition diagrams_js (l : list SavedDiagram) : jsval :=
  JArr (List.map (fun d => diagram (name d) (text d)) l).

(** The sequence without the element at position [index]. *)
Definition remove_at (index : nat) (l : list SavedDiagram) : list SavedDiagram :=
  firstn index l ++ skipn (S index) l.

(** A submission to the render pipeline: new text, or a new diagram theme. *)
Inductive Submission : Type :=
| NewText (t : jsstring)
| NewTheme (th : MermaidTheme).

Definition event_of (sub : Submission) : Event :=
  match sub with
  | NewText t => SetCode t
  | NewTheme th => SetMermaidTheme th
  end.

(** The text and the theme once a submission is in. *)
Definition submitted (sub : Submission) (s : State) : State :=
  match sub with
  | NewText t => set_code t s
  | NewTheme th => mermaid_initialize (set_mermaidTheme th s)
  end.

(** A submission that changes what it submits. *)
Definition changes (sub : Submission) (s : State) : Prop :=
  match sub with
  | NewText t => t <> code s
  | NewTheme th => th <> mermaidTheme s
  end.

(** Submissions that follow one another, each after a pause [gap]. *)
Definition Burst := list (N * Submission).

Fixpoint burst_events (b : Burst) : list Event :=
  match b with
  | [] => []
  | (gap, sub) :: r => Wait gap :: event_of sub :: burst_events r
  end.

Fixpoint burst_state (b : Burst) (s : State) : State :=
  match b with
  | [] => s
  | (gap, sub) :: r => burst_state r (submitted sub s)
  end.

Fixpoint burst_time (b : Burst) : N :=
  match b with
  | [] => 0
  | (gap, _) :: r => gap + burst_time r
  end.

(** Every pause is shorter than the debounce window and every submission
    changes the text or the theme. *)
Fixpoint rapid (b : Burst) (s : State) : Prop :=
  match b with
  | [] => True
  | (gap, sub) :: r => (gap < 500)%N /\ changes sub s /\ rapid r (submitted sub s)
  end.

(** The display shows the outcome [o] of a render. *)
Definition shows (s : State) (o : RenderOutcome) : Prop :=
  match o with
  | Rendered svg => error s = [] /\ diagramHTML s = svg
  | Rejected m => error s = message_of m
  end.

(** Invariants of the session: the pending timer carries the current
    text, and once mounted the renderer is configured with the selected
    theme. *)
Definition timer_current (s : State) : Prop :=
  forall t, timer s = Some t ->
    cl_code (callback t) = code s /\ cl_mounted (callback t) = mounted s.

Definition config_current (s : State) : Prop :=
  mounted s = true -> mermaidConfig s = mermaidTheme s.

(** Invariant of the parser: no container is open only when one whole
    value has been read. *)
Definition closed_only_when_done (p : pstate) : Prop :=
  pstack p = [] -> pmode p = Idle /\ exists v, pexpect p = EDone v.

(** Further invariants of the session. The ids of the renders in flight
    are distinct and were all drawn from the counter. *)
Definition ids_fresh (s : State) : Prop :=
  Forall (fun c => (call_id c < idCounter s)%N) (inflight s) /\
  NoDup (List.map call_id (inflight s)).

(** While an error is displayed the page holds no svg. *)
Definition artifact_discarded (s : State) : Prop :=
  is_empty (error s) = false -> diagramHTML s = [].

(** The zoom level is one of 50, 60, ..., 200. *)
Definition zoom_on_grid (s : State) : Prop :=
  exists k, (0 <= k <= 15)%Z /\ zoom s = (50 + 10 * k)%Z.

(** A pending timer is due within the next 500 ms and is not overdue. *)
Definition timer_in_window (s : State) : Prop :=
  forall t, timer s = Some t ->
    (now s < deadline t)%N /\ (deadline t <= now s + 500)%N.

(** The editor takes between 20 and 80 percent of the width. *)
Definition width_in_range (s : State) : Prop :=
  exists w, editorWidth s = Fin w /\ (20 <= w <= 80)%Q.

(** A pointer event that does not divide zero by zero. *)
Definition defined_move (e : Event) : Prop :=
  match e with
  | MouseMove clientX rect => ~ (width rect == 0 /\ clientX == left rect)%Q
  | _ => True
  end.

(** The saved diagrams are a sequence of pairs and the store holds its
    serialisation (or nothing, for the empty sequence). *)
Definition in_sync (s : State) : Prop :=
  exists l,
    savedDiagrams s = diagrams_js l /\
    (localStorage s = Some (JSON_stringify (diagrams_js l)) \/
     (localStorage s = None /\ l = [])).

(** The events that can schedule, cancel or run a render. *)
Definition pipeline_event (e : Event) : bool :=
  match e with
  | Mount | SetCode _ | SetMermaidTheme _ | SetTheme _
  | SystemThemeChange _ | Wait _ | RenderSettled _ => true
  | _ => false
  end.

(** The events of the page theme. *)
Definition page_theme_event (e : Event) : bool :=
  match e with
  | SetTheme _ | SystemThemeChange _ => true
  | _ => false
  end.

(** Pointer moves as events. *)
Definition move_events (moves : list (Q * DOMRect)) : list Event :=
  List.map (fun m => MouseMove (fst m) (snd m)) moves.

(** [pieces.join('\n')] *)
Fixpoint join_lines (pieces : list jsstring) : jsstring :=
  match pieces with
  | [] => []
  | [x] => x
  | x :: rest => x ++ [10%N] ++ join_lines rest
  end.

(* ------------------------------------------------------------------ *)
(** *** Sample data *)

Definition quote_mark : jsstring := [34%N].

(** The two texts of the recovery scenario: a complete flowchart and
    the same text cut off inside its arrow. *)
Definition valid_text : jsstring := js "graph TD" ++ [10%N] ++ js "A-->B".
Definition incomplete_text : jsstring := js "graph TD" ++ [10%N] ++ js "A--".

(** A renderer that rejects a text ending in a dash and wraps any other
    text in an svg element. *)
Definition sample_render (id t : jsstring) (th : MermaidTheme) : RenderOutcome :=
  match rev t with
  | 45%N :: _ => Rejected (Some (js "Parse error: unexpected end of input"))
  | _ => Rendered (js "<svg>" ++ t ++ js "</svg>")
  end.

Definition sample_null_message : jsstring :=
  js "Cannot set properties of null (setting 'innerHTML')".

(** The session after the page opened with nothing stored. *)
Definition opened : State :=
  step sample_render sample_null_message Mount (initial Light SysLight None).

(** The session with a text of two blanks in the editor. *)
Definition blank_session : State :=
  step sample_render sample_null_message (SetCode (js "  ")) opened.

(** Two renders in flight: the first text was rendered when its timer
    fired, and so was the text that replaced it. *)
Definition overlapping : State :=
  run sample_render sample_null_message
    [SetCode (js "A"); Wait 500; SetCode (js "B"); Wait 500] opened.

(** Two renders in flight again, the older one of the incomplete text
    and the newer one of the complete text. *)
Definition racing : State :=
  run sample_render sample_null_message
    [SetCode incomplete_text; Wait 500; SetCode valid_text; Wait 500] opened.

(** The session showing the error of the incomplete text. *)
Definition failed : State :=
  run sample_render sample_null_message
    [SetCode incomplete_text; Wait 500; RenderSettled 0] opened.

(** The session while the splitter is being dragged. *)
Definition resizing : State :=
  step sample_render sample_null_message MouseDown opened.

(** Three quick submissions after a first one. *)
Definition sample_burst : Burst :=
  [(100%N, NewText (js "AB")); (200%N, NewTheme ThForest);
   (499%N, NewText valid_text)].

(** The session just after a first letter was typed. *)
Definition typing : State :=
  step sample_render sample_null_message (SetCode (js "A")) opened.

(** A drag of the splitter to 5 percent of a container 100 pixels wide,
    from the opening of the page to the release of the button. *)
Definition sample_drag : list Event :=
  [Mount; MouseDown; MouseMove 5 (mkRect 0 100); MouseUp].

(** A save, an edit and a second save. *)
Definition sample_saves : list Event :=
  [SaveDiagram (Some (js "A")); SetCode (js "B"); SaveDiagram (Some (js "A"))].

(** A serialised sequence of one diagram, cut short inside its second
    key. *)
Definition truncated_blob : jsstring :=
  js "[{" ++ quote_mark ++ js "name" ++ quote_mark ++ js ":" ++ quote_mark
     ++ js "A" ++ quote_mark ++ js "," ++ quote_mark ++ js "co".

(* ================================================================== *)
(** ** Properties *)
(* ================================================================== *)

Section Properties.

Variable mermaid_render : jsstring -> jsstring -> MermaidTheme -> RenderOutcome.
Variable null_message : jsstring.

Local Abbreviation step := (Editor.step mermaid_render null_message).
Local Abbreviation run := (Editor.run mermaid_render null_message).
Local Abbreviation settle := (Editor.settle mermaid_render null_message).
Local Abbreviation resume := (Editor.resume mermaid_render null_message).

(** The states the session can be in. *)
Inductive reachable : State -> Prop :=
| reach_initial th sys stored : reachable (initial th sys stored)
| reach_step e s : reachable s -> reachable (step e s).

(** What a render in flight will settle with. *)
Definition outcome (c : RenderCall) : RenderOutcome :=
  mermaid_render (diagram_id (call_id c)) (call_code c) (call_theme c).

(** Results of superseded renders are discarded: of two renders in
    flight, when the newer settles first and the older afterwards, the
    display keeps the result of the newer one. *)
Definition superseded_results_discarded : Prop :=
  forall s older newer,
    reachable s ->
    In older (inflight s) -> In newer (inflight s) ->
    (call_id older < call_id newer)%N ->
    shows (settle (call_id older) (settle (call_id newer) s)) (outcome newer).

(** The stored width is the clamped percentage, whatever the pointer
    position and the bounding box. *)
Definition width_always_clamped : Prop :=
  forall s clientX rect,
    isResizing s = true -> mounted s = true ->
    exists w,
      editorWidth (step (MouseMove clientX rect) s) = Fin w /\
      (w == clamp ((clientX - left rect) / width rect * 100) 20 80)%Q /\
      (20 <= w <= 80)%Q.

(* ------------------------------------------------------------------ *)
(** *** Tactics *)

(** Splits every test of the goal. *)
Ltac split_tests :=
  repeat match goal with
         | |- context [if ?b then _ else _] => destruct b eqn:?
         | |- context [match ?x with _ => _ end] => destruct x eqn:?
         end.

(** Proves that a handler leaves a field alone: unfolds the handlers and
    splits their tests. *)
Ltac frame :=
  unfold Editor.settle, Editor.resume, advance, renderDiagram, setError,
    toggleFullscreen, handleFullscreenChange, handleMouseDown,
    handleMouseMove, handleMouseUp, handleZoomIn, handleZoomOut,
    saveDiagram, deleteDiagram, load_saved, mermaid_initialize,
    sync_theme, arm;
  simpl;
  split_tests; simpl in *; repeat split; intros;
  try discriminate; try congruence; auto.

(** Splits the comparisons of code units in the goal. *)
Ltac units :=
  repeat match goal with
         | |- context [N.eqb ?a ?b] => destruct (N.eqb_spec a b)
         | |- context [N.leb ?a ?b] => destruct (N.leb_spec a b)
         | |- context [N.ltb ?a ?b] => destruct (N.ltb_spec a b)
         end;
  cbn [andb orb negb]; try lia; try reflexivity; try (f_equal; lia).

(** Proves that an event leaves a field alone: goes through the effects
    of the commit, then through the handler. *)
Ltac quiet_event :=
  simpl;
  try match goal with
      | |- context [if mounted ?s then _ else _] => destruct (mounted s) eqn:?
      end;
  autorewrite with through_commit; frame.

(* ------------------------------------------------------------------ *)
(** *** Basic facts *)

Lemma str_eqb_spec (a b : jsstring) : reflect (a = b) (str_eqb a b).
Proof.
  revert b. induction a as [|x a IH]; intros [|y b]; simpl;
    try (constructor; congruence).
  destruct (N.eqb_spec x y) as [->|Hne]; simpl.
  - destruct (IH b) as [->|Hne]; constructor; congruence.
  - constructor; congruence.
Qed.

Lemma str_eqb_refl (a : jsstring) : str_eqb a a = true.
Proof. destruct (str_eqb_spec a a); congruence. Qed.

Lemma theme_eqb_spec (a b : MermaidTheme) : reflect (a = b) (theme_eqb a b).
Proof. destruct a, b; simpl; constructor; congruence. Qed.

Lemma theme_eqb_refl (a : MermaidTheme) : theme_eqb a a = true.
Proof. destruct a; reflexivity. Qed.

Lemma is_empty_spec (s : jsstring) : is_empty s = true <-> s = [].
Proof. destruct s; simpl; split; congruence. Qed.

(** A handler that leaves the dependencies of every effect alone runs no
    effect. *)
Lemma commit_nothing (s s' : State) :
  code s' = code s -> mermaidTheme s' = mermaidTheme s ->
  mounted s' = mounted s -> isDark s' = isDark s ->
  commit s s' = s'.
Proof.
  intros Hc Ht Hm Hd. unfold commit.
  rewrite Hm, Hd, !Bool.eqb_reflx. simpl.
  rewrite Ht, Hc, theme_eqb_refl, str_eqb_refl. reflexivity.
Qed.


Lemma commit_isFullscreen (s s' : State) :
  isFullscreen (commit s s') = isFullscreen s'.
Proof.
  unfold commit, load_saved, arm, mermaid_initialize, sync_theme.
  split_tests; reflexivity.
Qed.

Lemma resume_isFullscreen (c : RenderCall) (s : State) :
  isFullscreen (resume c s) = isFullscreen s.
Proof. unfold Editor.resume, setError. split_tests; reflexivity. Qed.

Lemma renderDiagram_isFullscreen (cl : Closure) (s : State) :
  isFullscreen (renderDiagram cl s) = isFullscreen s.
Proof. unfold renderDiagram. split_tests; reflexivity. Qed.

(* ------------------------------------------------------------------ *)
(** *** Zoom *)

(** C7. For a zoom level between 50 and 200, zooming in gives
    [min (z + 10) 200] and zooming out gives [max (z - 10) 50]; repeated
    zooming in at 200 stays at 200 and repeated zooming out at 50 stays at
    50; away from the bounds a step changes the level by exactly 10; the
    level stays between 50 and 200. *)
Theorem zoom_steps_and_bounds (s : State) :
  (50 <= zoom s <= 200)%Z ->
  zoom (step ZoomIn s) = Z.min (zoom s + 10) 200 /\
  zoom (step ZoomOut s) = Z.max (zoom s - 10) 50 /\
  (zoom s = 200%Z -> forall n, zoom (run (repeat ZoomIn n) s) = 200%Z) /\
  (zoom s = 50%Z -> forall n, zoom (run (repeat ZoomOut n) s) = 50%Z) /\
  ((zoom s <= 190)%Z -> zoom (step ZoomIn s) = (zoom s + 10)%Z) /\
  ((60 <= zoom s)%Z -> zoom (step ZoomOut s) = (zoom s - 10)%Z) /\
  (50 <= zoom (step ZoomIn s) <= 200)%Z /\
  (50 <= zoom (step ZoomOut s) <= 200)%Z.
Proof.
  intros Hz. simpl.
  repeat split; try lia.
  - intros H n. revert s Hz H. induction n as [|n IH]; intros s Hz H; simpl.
    + exact H.
    + apply IH; simpl; lia.
  - intros H n. revert s Hz H. induction n as [|n IH]; intros s Hz H; simpl.
    + exact H.
    + apply IH; simpl; lia.
Qed.

(* ------------------------------------------------------------------ *)
(** *** Fullscreen *)

Lemma step_keeps_fullscreen_flag (e : Event) (s : State) :
  e <> FullscreenChange -> isFullscreen (step e s) = isFullscreen s.
Proof.
  intros He.
  destruct e; simpl; try congruence;
    try (rewrite commit_isFullscreen; reflexivity);
    try reflexivity.
  - destruct (mounted s); [reflexivity|].
    rewrite commit_isFullscreen. reflexivity.
  - unfold advance. simpl. destruct (timer s) as [t|]; [|reflexivity].
    destruct (deadline t <=? now s + dt)%N; [|reflexivity].
    rewrite renderDiagram_isFullscreen. reflexivity.
  - unfold Editor.settle. destruct (take_call id (inflight s)) as [[c r]|]; [|reflexivity].
    rewrite resume_isFullscreen. reflexivity.
  - unfold toggleFullscreen. split_tests; reflexivity.
  - unfold handleMouseMove. split_tests; reflexivity.
  - unfold handleMouseUp. split_tests; reflexivity.
  - unfold saveDiagram. split_tests; reflexivity.
  - unfold deleteDiagram. split_tests; reflexivity.
Qed.

(** C9. No event other than the host's fullscreen-change notification
    changes the fullscreen flag: a toggle request, granted or not, leaves
    it as it was (it only reaches the host), and so does every run of
    events without a notification; the notification sets the flag to what
    the host reports. *)
Theorem fullscreen_flag_follows_host (e : Event) (s : State) :
  e <> FullscreenChange ->
  isFullscreen (step e s) = isFullscreen s /\
  (forall granted, isFullscreen (step (ToggleFullscreen granted) s) = isFullscreen s) /\
  (forall es, Forall (fun e' => e' <> FullscreenChange) es ->
              isFullscreen (run es s) = isFullscreen s) /\
  isFullscreen (step FullscreenChange s) = fullscreenElement s.
Proof.
  intros He. split; [apply step_keeps_fullscreen_flag, He|].
  split; [intros granted; apply step_keeps_fullscreen_flag; discriminate|].
  split; [|reflexivity].
  intros es Hes. revert s. induction Hes as [|e' es' He' _ IH]; intros s.
  - reflexivity.
  - change (run (e' :: es') s) with (run es' (step e' s)).
    rewrite IH. apply step_keeps_fullscreen_flag, He'.
Qed.

(* ------------------------------------------------------------------ *)
(** *** Saving without a name *)

(** C10. Saving with a cancelled prompt or with an empty name changes
    nothing: the whole state, and so the saved diagrams and the stored
    item, is as before. *)
Theorem save_without_name_changes_nothing (s : State) :
  step (SaveDiagram None) s = s /\
  step (SaveDiagram (Some [])) s = s /\
  savedDiagrams (step (SaveDiagram None) s) = savedDiagrams s /\
  localStorage (step (SaveDiagram None) s) = localStorage s /\
  savedDiagrams (step (SaveDiagram (Some [])) s) = savedDiagrams s /\
  localStorage (step (SaveDiagram (Some [])) s) = localStorage s.
Proof. repeat split. Qed.

(* ------------------------------------------------------------------ *)
(** *** White space *)

Lemma trimStart_nil (s : jsstring) :
  trimStart s = [] <-> whitespace_only s = true.
Proof.
  induction s as [|c r IH]; simpl.
  - tauto.
  - destruct (is_js_whitespace c); simpl.
    + exact IH.
    + split; discriminate.
Qed.

Lemma whitespace_only_app (a b : jsstring) :
  whitespace_only (a ++ b) = whitespace_only a && whitespace_only b.
Proof. apply forallb_app. Qed.

Lemma whitespace_only_rev (s : jsstring) :
  whitespace_only (rev s) = whitespace_only s.
Proof.
  induction s as [|c r IH]; simpl; [reflexivity|].
  rewrite whitespace_only_app, IH. simpl.
  rewrite andb_true_r. apply andb_comm.
Qed.

Lemma trimStart_keeps_tail (s : jsstring) :
  whitespace_only s = false -> whitespace_only (trimStart s) = false.
Proof.
  induction s as [|c r IH]; simpl; [discriminate|].
  destruct (is_js_whitespace c) eqn:Hc; simpl.
  - exact IH.
  - intros _. rewrite Hc. reflexivity.
Qed.

(** [!code.trim()] holds exactly for the texts that are empty or white
    space only. *)
Lemma blank_iff_trim_empty (s : jsstring) :
  is_empty (trim s) = whitespace_only s.
Proof.
  unfold trim, trimEnd.
  destruct (whitespace_only s) eqn:Hs.
  - apply trimStart_nil in Hs. rewrite Hs. reflexivity.
  - apply trimStart_keeps_tail in Hs.
    rewrite <- whitespace_only_rev in Hs.
    apply trimStart_keeps_tail in Hs.
    rewrite <- whitespace_only_rev in Hs.
    destruct (rev (trimStart (rev (trimStart s)))); [discriminate | reflexivity].
Qed.

Lemma renderDiagram_blank (cl : Closure) (s : State) :
  whitespace_only (cl_code cl) = true -> renderDiagram cl s = s.
Proof.
  intros H. unfold renderDiagram.
  rewrite blank_iff_trim_empty, H, orb_true_r. reflexivity.
Qed.

(* ------------------------------------------------------------------ *)
(** *** Invariants of the session *)

Lemma arm_timer_current (s : State) : timer_current (arm s).
Proof. intros t H. simpl in H. injection H as <-. simpl. auto. Qed.


Lemma sync_theme_frame (s : State) :
  code (sync_theme s) = code s /\ mounted (sync_theme s) = mounted s /\
  timer (sync_theme s) = timer s /\ mermaidConfig (sync_theme s) = mermaidConfig s /\
  now (sync_theme s) = now s.
Proof. frame. Qed.

Lemma mermaid_initialize_frame (s : State) :
  code (mermaid_initialize s) = code s /\
  mounted (mermaid_initialize s) = mounted s /\
  timer (mermaid_initialize s) = timer s /\
  mermaidTheme (mermaid_initialize s) = mermaidTheme s /\
  now (mermaid_initialize s) = now s.
Proof. frame. Qed.

Lemma mermaid_initialize_config (s : State) :
  mounted s = true -> mermaidConfig (mermaid_initialize s) = mermaidTheme s.
Proof. unfold mermaid_initialize. intros ->. reflexivity. Qed.

Lemma load_saved_frame (s : State) :
  code (load_saved s) = code s /\ mounted (load_saved s) = mounted s /\
  timer (load_saved s) = timer s /\ mermaidTheme (load_saved s) = mermaidTheme s /\
  mermaidConfig (load_saved s) = mermaidConfig s.
Proof. frame. Qed.

(** Effects keep the invariants, whatever state cell the handler set. *)
Lemma commit_invariants (old new : State) :
  timer_current old -> config_current old ->
  timer new = timer old -> mermaidConfig new = mermaidConfig old ->
  timer_current (commit old new) /\ config_current (commit old new).
Proof.
  intros Ht Hc Htimer Hconfig. unfold commit.
  set (mc := negb (Bool.eqb (mounted old) (mounted new))).
  set (s1 := if negb (Bool.eqb (isDark old) (isDark new)) || mc
             then sync_theme new else new).
  assert (H1 : code s1 = code new /\ mounted s1 = mounted new /\
               timer s1 = timer new /\ mermaidConfig s1 = mermaidConfig new).
  { subst s1. destruct (negb _ || mc); [|auto].
    pose proof (sync_theme_frame new). tauto. }
  destruct H1 as (H1c & H1m & H1t & H1g).
  set (tc := negb (theme_eqb (mermaidTheme old) (mermaidTheme s1))).
  set (cc := negb (str_eqb (code old) (code s1))).
  set (s2 := if tc || mc then mermaid_initialize s1 else s1).
  assert (H2 : code s2 = code s1 /\ mounted s2 = mounted s1 /\
               timer s2 = timer s1 /\ mermaidTheme s2 = mermaidTheme s1).
  { subst s2. destruct (tc || mc); [|auto].
    pose proof (mermaid_initialize_frame s1). tauto. }
  destruct H2 as (H2c & H2m & H2t & H2th).
  assert (H2g : mounted s1 = true ->
                mermaidConfig s2 = if tc || mc then mermaidTheme s1 else mermaidConfig s1).
  { intros Hm. subst s2. destruct (tc || mc); [|reflexivity].
    apply mermaid_initialize_config, Hm. }
  set (s3 := if cc || tc || mc then arm s2 else s2).
  assert (H3 : timer_current s3 /\ config_current s3).
  { subst s3. destruct cc eqn:Ecc, tc eqn:Etc, mc eqn:Emc; simpl in *;
      try (split; [apply arm_timer_current |
                   unfold config_current; simpl; intros Hm;
                   rewrite H2g, H2th by congruence; reflexivity]).
    - (* only the text changed *)
      split; [apply arm_timer_current|].
      unfold config_current; simpl; intros Hm.
      rewrite H2g, H2th by congruence.
      subst tc mc.
      apply negb_false_iff in Etc, Emc.
      destruct (theme_eqb_spec (mermaidTheme old) (mermaidTheme s1)); [|discriminate].
      apply Bool.eqb_prop in Emc.
      rewrite H1g, Hconfig, <- e. apply Hc. congruence.
    - (* nothing changed *)
      subst cc tc mc.
      apply negb_false_iff in Ecc, Etc, Emc.
      destruct (str_eqb_spec (code old) (code s1)); [|discriminate].
      destruct (theme_eqb_spec (mermaidTheme old) (mermaidTheme s1)); [|discriminate].
      apply Bool.eqb_prop in Emc.
      split.
      + intros t Hs. subst s2. simpl in Hs. rewrite H1t, Htimer in Hs.
        destruct (Ht t Hs) as [Ha Hb]. simpl. split; congruence.
      + subst s2. simpl. intros Hm.
        rewrite <- e0, H1g, Hconfig. apply Hc. congruence. }
  destruct H3 as [H3t H3c].
  destruct mc; [|auto].
  pose proof (load_saved_frame s3) as (La & Lb & Lc & Ld & Le).
  split.
  - intros t Hs. rewrite Lc in Hs. rewrite La, Lb. apply H3t, Hs.
  - intros Hm. rewrite Ld, Le. apply H3c. congruence.
Qed.

Lemma frame_invariants (s s' : State) :
  code s' = code s -> mounted s' = mounted s ->
  mermaidTheme s' = mermaidTheme s -> mermaidConfig s' = mermaidConfig s ->
  (forall t, timer s' = Some t -> timer s = Some t) ->
  timer_current s /\ config_current s ->
  timer_current s' /\ config_current s'.
Proof.
  intros Hc Hm Hth Hg Ht [It Ic]. split.
  - intros t Hs. rewrite Hc, Hm. apply It, Ht, Hs.
  - intros H. rewrite Hg, Hth. apply Ic. congruence.
Qed.

Lemma renderDiagram_frame (cl : Closure) (s : State) :
  code (renderDiagram cl s) = code s /\
  mounted (renderDiagram cl s) = mounted s /\
  mermaidTheme (renderDiagram cl s) = mermaidTheme s /\
  mermaidConfig (renderDiagram cl s) = mermaidConfig s /\
  timer (renderDiagram cl s) = timer s /\
  now (renderDiagram cl s) = now s.
Proof. frame. Qed.

Lemma settle_frame (k : N) (s : State) :
  code (settle k s) = code s /\
  mounted (settle k s) = mounted s /\
  mermaidTheme (settle k s) = mermaidTheme s /\
  mermaidConfig (settle k s) = mermaidConfig s /\
  timer (settle k s) = timer s /\
  now (settle k s) = now s.
Proof. frame. Qed.

Lemma step_invariants (e : Event) (s : State) :
  timer_current s /\ config_current s ->
  timer_current (step e s) /\ config_current (step e s).
Proof.
  intros I. pose proof I as [It Ic].
  destruct e; simpl;
    try (apply commit_invariants; auto; fail);
    try (apply (frame_invariants s); auto; frame; fail).
  (* Mount is left *)
  destruct (mounted s) eqn:Hm; [exact I|].
  apply commit_invariants; auto.
  apply arm_timer_current.
Qed.

Lemma reachable_invariants (s : State) :
  reachable s -> timer_current s /\ config_current s.
Proof.
  induction 1 as [th sys stored | e s _ IH].
  - split.
    + intros t H. discriminate.
    + intros H. discriminate.
  - apply step_invariants, IH.
Qed.

(* ------------------------------------------------------------------ *)
(** *** The guard on blank text *)

(** C4. When the text is empty or white space only, the debounce timer,
    whenever it fires, attempts no render (no id is drawn, no call of the
    renderer is in flight that was not before) and leaves the Render
    Result, artifact or error, as it was. *)
Theorem blank_text_fires_nothing (s : State) (dt : N) :
  reachable s ->
  whitespace_only (code s) = true ->
  inflight (step (Wait dt) s) = inflight s /\
  idCounter (step (Wait dt) s) = idCounter s /\
  error (step (Wait dt) s) = error s /\
  diagramHTML (step (Wait dt) s) = diagramHTML s /\
  (forall t, timer s = Some t -> (deadline t <= now s + dt)%N ->
             step (Wait dt) s = set_timer None (set_now (now s + dt) s)).
Proof.
  intros Hr Hw. apply reachable_invariants in Hr as [It _].
  simpl. unfold advance. simpl.
  destruct (timer s) as [t|] eqn:Ht.
  - destruct (It t Ht) as [Hcode _].
    rewrite renderDiagram_blank by (rewrite Hcode; exact Hw).
    destruct (N.leb_spec (deadline t) (now s + dt)); simpl; repeat split; auto;
      intros t' Ht' Hd; try reflexivity.
    injection Ht' as <-. lia.
  - repeat split; auto. intros t H. discriminate.
Qed.

(* ------------------------------------------------------------------ *)
(** *** The debounce *)

(** A submission that changes the text or the theme re-arms the timer:
    the pending timer, if any, is cleared and a new one is set. *)
Lemma step_submission (sub : Submission) (s : State) :
  changes sub s -> step (event_of sub) s = arm (submitted sub s).
Proof.
  destruct sub as [t | th]; simpl; intros Hch; unfold commit; simpl.
  - rewrite !Bool.eqb_reflx, theme_eqb_refl. simpl.
    destruct (str_eqb_spec (code s) t); [congruence | reflexivity].
  - rewrite !Bool.eqb_reflx, str_eqb_refl. simpl.
    destruct (theme_eqb_spec (mermaidTheme s) th); [congruence | reflexivity].
Qed.

Lemma wait_before_deadline (s : State) (t : Timer) (g : N) :
  timer s = Some t -> (now s + g < deadline t)%N ->
  step (Wait g) s = set_now (now s + g) s.
Proof.
  intros Ht Hd. simpl. unfold advance. simpl. rewrite Ht.
  destruct (N.leb_spec (deadline t) (now s + g)); [lia | reflexivity].
Qed.

Lemma wait_past_deadline (s : State) (t : Timer) (d : N) :
  timer s = Some t -> (deadline t <= now s + d)%N ->
  step (Wait d) s =
  renderDiagram (callback t) (set_timer None (set_now (now s + d) s)).
Proof.
  intros Ht Hd. simpl. unfold advance. simpl. rewrite Ht.
  destruct (N.leb_spec (deadline t) (now s + d)); [reflexivity | lia].
Qed.

Lemma submitted_frame (sub : Submission) (s : State) :
  mounted (submitted sub s) = mounted s /\
  error (submitted sub s) = error s /\
  inflight (submitted sub s) = inflight s /\
  idCounter (submitted sub s) = idCounter s /\
  diagramHTML (submitted sub s) = diagramHTML s /\
  now (submitted sub s) = now s /\
  timer (submitted sub s) = timer s.
Proof. destruct sub; simpl; frame. Qed.

(** Only the text, the theme and whether the component is mounted decide
    what a submission does. *)
Lemma submitted_clock (sub : Submission) (s1 s2 : State) (T : N) :
  set_timer None (set_now T s1) = set_timer None (set_now T s2) ->
  set_timer None (set_now T (submitted sub s1)) =
  set_timer None (set_now T (submitted sub s2)).
Proof.
  destruct s1, s2. unfold set_timer, set_now. simpl.
  intros H. injection H as -> -> -> -> -> -> -> -> -> -> -> -> -> -> -> -> -> ->.
  destruct sub; simpl; [reflexivity|].
  unfold mermaid_initialize. simpl. destruct mounted1; reflexivity.
Qed.

Lemma burst_state_clock (b : Burst) (s1 s2 : State) (T : N) :
  set_timer None (set_now T s1) = set_timer None (set_now T s2) ->
  set_timer None (set_now T (burst_state b s1)) =
  set_timer None (set_now T (burst_state b s2)).
Proof.
  revert s1 s2. induction b as [|[g sub] r IH]; intros s1 s2 H; simpl.
  - exact H.
  - apply IH, submitted_clock, H.
Qed.

Lemma rapid_clock (b : Burst) (s1 s2 : State) :
  set_timer None (set_now 0 s1) = set_timer None (set_now 0 s2) ->
  rapid b s1 -> rapid b s2.
Proof.
  revert s1 s2. induction b as [|[g sub] r IH]; intros s1 s2 H; simpl; [auto|].
  intros (Hg & Hc & Hr). split; [exact Hg|]. split.
  - assert (Hcode : code s1 = code s2)
      by (apply (f_equal code) in H; exact H).
    assert (Hth : mermaidTheme s1 = mermaidTheme s2)
      by (apply (f_equal mermaidTheme) in H; exact H).
    destruct sub; simpl in *; congruence.
  - apply (IH (submitted sub s1)); [|exact Hr].
    apply submitted_clock, H.
Qed.

Lemma burst_state_frame (b : Burst) (s : State) :
  mounted (burst_state b s) = mounted s /\
  error (burst_state b s) = error s /\
  inflight (burst_state b s) = inflight s /\
  idCounter (burst_state b s) = idCounter s /\
  diagramHTML (burst_state b s) = diagramHTML s.
Proof.
  revert s. induction b as [|[g sub] r IH]; intros s; simpl; [tauto|].
  pose proof (IH (submitted sub s)) as (A & B & C & D & E).
  pose proof (submitted_frame sub s) as (A' & B' & C' & D' & E' & _).
  repeat split; congruence.
Qed.

Lemma burst_state_config (b : Burst) (s : State) :
  mounted s = true -> mermaidConfig s = mermaidTheme s ->
  mermaidConfig (burst_state b s) = mermaidTheme (burst_state b s).
Proof.
  revert s. induction b as [|[g sub] r IH]; intros s Hm Hc; simpl; [exact Hc|].
  apply IH.
  - pose proof (submitted_frame sub s) as (A & _). congruence.
  - destruct sub; simpl; [exact Hc|].
    unfold mermaid_initialize. simpl. rewrite Hm. reflexivity.
Qed.

(** From a state whose timer was just armed, a burst and a final pause of
    at least the debounce window amount to one call of [renderDiagram],
    on the last text. *)
Lemma burst_runs_once (b : Burst) (s : State) (t : Timer) (d : N) :
  timer s = Some t -> deadline t = (now s + 500)%N ->
  callback t = mkClosure (code s) (mounted s) ->
  rapid b s -> (500 <= d)%N ->
  run (burst_events b ++ [Wait d]) s =
  renderDiagram
    (mkClosure (code (burst_state b s)) (mounted (burst_state b s)))
    (set_timer None
       (set_now (now s + burst_time b + d) (burst_state b s))).
Proof.
  revert s t. induction b as [|[g sub] r IH]; intros s t Ht Hd Hcb Hr Hlong.
  - change (run (burst_events [] ++ [Wait d]) s) with (step (Wait d) s).
    rewrite (wait_past_deadline s t d Ht) by lia.
    simpl. rewrite Hcb, N.add_0_r. reflexivity.
  - destruct Hr as (Hg & Hch & Hr).
    change (run (burst_events ((g, sub) :: r) ++ [Wait d]) s)
      with (run (burst_events r ++ [Wait d])
              (step (event_of sub) (step (Wait g) s))).
    rewrite (wait_before_deadline s t g Ht) by lia.
    rewrite step_submission
      by (destruct sub; simpl in *; exact Hch).
    set (s1 := arm (submitted sub (set_now (now s + g) s))).
    assert (Hclock : forall T,
      set_timer None (set_now T s1) = set_timer None (set_now T (submitted sub s))).
    { intros T. subst s1.
      change (set_timer None (set_now T (arm ?x))) with (set_timer None (set_now T x)).
      apply submitted_clock. reflexivity. }
    assert (Hnow : now s1 = (now s + g)%N).
    { subst s1. simpl. pose proof (submitted_frame sub (set_now (now s + g) s)).
      simpl in *. tauto. }
    rewrite (IH s1 (mkTimer (now s1 + 500) (mkClosure (code s1) (mounted s1))));
      try reflexivity; try assumption.
    + pose proof (burst_state_clock r _ _ _ (Hclock (now s1 + burst_time r + d)%N)) as E.
      assert (Ec : code (burst_state r s1) = code (burst_state r (submitted sub s)))
        by (apply (f_equal code) in E; exact E).
      assert (Em : mounted (burst_state r s1) = mounted (burst_state r (submitted sub s)))
        by (apply (f_equal mounted) in E; exact E).
      rewrite Ec, Em, E, Hnow.
      change (burst_state ((g, sub) :: r) s) with (burst_state r (submitted sub s)).
      change (burst_time ((g, sub) :: r)) with (g + burst_time r)%N.
      replace (now s + g + burst_time r + d)%N with (now s + (g + burst_time r) + d)%N
        by lia.
      reflexivity.
    + apply (rapid_clock r (submitted sub s) s1); [|exact Hr].
      symmetry. apply Hclock.
Qed.


(* ------------------------------------------------------------------ *)
(** *** The error state *)

Lemma message_of_not_empty (m : option jsstring) : is_empty (message_of m) = false.
Proof.
  destruct m as [t|]; simpl; [|reflexivity].
  destruct t; reflexivity.
Qed.

Lemma commit_error (s s' : State) : error (commit s s') = error s'.
Proof. unfold commit. frame. Qed.

Lemma renderDiagram_needs_div (cl : Closure) (s : State) :
  diagramRef_current s = false -> renderDiagram cl s = s.
Proof. intros H. unfold renderDiagram. rewrite H. reflexivity. Qed.

Lemma error_survives_step (e : Event) (s : State) :
  is_empty (error s) = false -> is_empty (error (step e s)) = false.
Proof.
  intros He.
  assert (Hdiv : forall s0, error s0 = error s -> diagramRef_current s0 = false).
  { intros s0 H0. unfold diagramRef_current. rewrite H0, He. apply andb_false_r. }
  destruct e; simpl; try rewrite commit_error; try exact He;
    try (frame; fail).
  - (* Mount *)
    destruct (mounted s); [exact He|]. rewrite commit_error. exact He.
  - (* Wait *)
    unfold advance. simpl. destruct (timer s) as [t|]; [|exact He].
    destruct (deadline t <=? now s + dt)%N; [|exact He].
    rewrite renderDiagram_needs_div by (apply Hdiv; reflexivity). exact He.
  - (* RenderSettled *)
    unfold Editor.settle. destruct (take_call id (inflight s)) as [[c r]|]; [|exact He].
    unfold Editor.resume.
    rewrite (Hdiv (set_inflight r s)) by reflexivity.
    destruct (mermaid_render _ _ _); unfold setError;
      cbn [error set_error set_diagramHTML]; apply message_of_not_empty.
Qed.

Lemma error_survives_run (es : list Event) (s : State) :
  is_empty (error s) = false -> is_empty (error (run es s)) = false.
Proof.
  revert s. induction es as [|e es IH]; intros s He; simpl; [exact He|].
  apply IH, error_survives_step, He.
Qed.

Lemma commit_frame (s s' : State) :
  error (commit s s') = error s' /\
  inflight (commit s s') = inflight s' /\
  idCounter (commit s s') = idCounter s' /\
  diagramHTML (commit s s') = diagramHTML s'.
Proof. unfold commit. frame. Qed.

(** C3, as the code has it. Once an error is displayed, the diagram div
    is out of the page and [renderDiagram] returns at its guard: whatever
    text is submitted next, the timer fires without a call of the renderer
    and the error stays; no sequence of events clears it. *)
Theorem displayed_error_is_never_replaced (s : State) (es : list Event) :
  is_empty (error s) = false ->
  is_empty (error (run es s)) = false /\
  (forall t d,
     error (run [SetCode t; Wait d] s) = error s /\
     inflight (run [SetCode t; Wait d] s) = inflight s /\
     idCounter (run [SetCode t; Wait d] s) = idCounter s).
Proof.
  intros He. split; [apply error_survives_run, He|].
  intros t d.
  change (run [SetCode t; Wait d] s)
    with (advance d (commit s (set_code t s))).
  pose proof (commit_frame s (set_code t s)) as (A & B & C & _).
  simpl in A, B, C.
  set (s1 := commit s (set_code t s)) in *.
  assert (Hdiv : forall s0, error s0 = error s -> diagramRef_current s0 = false).
  { intros s0 H0. unfold diagramRef_current. rewrite H0, He. apply andb_false_r. }
  unfold advance. simpl.
  destruct (timer s1) as [tm|]; [|auto].
  destruct (deadline tm <=? now s1 + d)%N; [|auto].
  rewrite renderDiagram_needs_div by (apply Hdiv; exact A).
  auto.
Qed.

(* ------------------------------------------------------------------ *)
(** *** Renders that settle *)

Lemma reachable_run (es : list Event) (s : State) :
  reachable s -> reachable (run es s).
Proof.
  revert s. induction es as [|e es IH]; intros s H; simpl; [exact H|].
  apply IH, reach_step, H.
Qed.

Lemma settle_applies (s : State) (k : N) (c : RenderCall) (rest : list RenderCall) :
  take_call k (inflight s) = Some (c, rest) ->
  diagramRef_current s = true ->
  shows (settle k s) (outcome c) /\ inflight (settle k s) = rest.
Proof.
  intros Ht Hdiv. unfold Editor.settle, Editor.resume, outcome. rewrite Ht.
  assert (Hdiv' : diagramRef_current (set_inflight rest s) = true) by exact Hdiv.
  rewrite Hdiv'.
  assert (He : error s = []).
  { unfold diagramRef_current in Hdiv. apply andb_true_iff in Hdiv as [_ H].
    apply is_empty_spec, H. }
  destruct (mermaid_render _ _ _) as [svg | m]; simpl.
  - auto.
  - destruct (is_empty (message_of m)); auto.
Qed.


(* ------------------------------------------------------------------ *)
(** *** The splitter *)


(* ------------------------------------------------------------------ *)
(** *** [JSON.parse] reads back what [JSON.stringify] wrote *)


Lemma hex_digit_value (d : N) :
  (d < 16)%N -> hex_value (hex_digit d) = Some d.
Proof.
  intros H. unfold hex_value, hex_digit, is_digit.
  destruct (N.ltb_spec d 10); units.
Qed.

Lemma hex_digits_value (c : N) :
  (c < 65536)%N ->
  ((((0 * 16 + c / 4096 mod 16) * 16 + c / 256 mod 16) * 16
    + c / 16 mod 16) * 16 + c mod 16)%N = c.
Proof.
  intros H.
  change 4096%N with (16 * (16 * 16))%N. change 256%N with (16 * 16)%N.
  rewrite <- !N.Div0.div_div.
  apply N2Z.inj. apply N2Z.inj_lt in H.
  repeat (progress rewrite ?N2Z.inj_add, ?N2Z.inj_mul, ?N2Z.inj_mod, ?N2Z.inj_div).
  pose proof (N2Z.is_nonneg c) as Hc.
  change (Z.of_N 16) with 16%Z in *. change (Z.of_N 0) with 0%Z.
  change (Z.of_N 65536) with 65536%Z in *.
  generalize dependent (Z.of_N c). intros z Hz Hz0.
  Z.div_mod_to_equations. lia.
Qed.

Lemma feed_unicode_escape (c : N) (acc rest : jsstring) (e : expect) (st : list frame) :
  (c < 65536)%N ->
  feed_all (unicode_escape c ++ rest) (mkP (InStr acc) e st) =
  feed_all rest (mkP (InStr (c :: acc)) e st).
Proof.
  intros H. unfold unicode_escape.
  cbn [app feed_all]. unfold feed at 1. cbn [pmode pexpect pstack].
  change (92 =? 34)%N with false. change (92 =? 92)%N with true. cbv iota.
  unfold feed at 1. cbn [pmode pexpect pstack].
  change (117 =? 117)%N with true. cbv iota.
  assert (Hd : forall x, (x mod 16 < 16)%N) by (intros x; apply N.mod_lt; lia).
  unfold feed at 1. cbn [pmode pexpect pstack]. rewrite hex_digit_value by apply Hd.
  cbn [Nat.eqb]. cbv iota.
  unfold feed at 1. cbn [pmode pexpect pstack]. rewrite hex_digit_value by apply Hd.
  cbn [Nat.eqb]. cbv iota.
  unfold feed at 1. cbn [pmode pexpect pstack]. rewrite hex_digit_value by apply Hd.
  cbn [Nat.eqb]. cbv iota.
  unfold feed at 1. cbn [pmode pexpect pstack]. rewrite hex_digit_value by apply Hd.
  cbn [Nat.eqb]. cbv iota.
  rewrite hex_digits_value by exact H. reflexivity.
Qed.

Lemma feed_raw (c : N) (acc : jsstring) (e : expect) (st : list frame) :
  (32 <= c)%N -> c <> 34%N -> c <> 92%N ->
  feed c (mkP (InStr acc) e st) = Some (mkP (InStr (c :: acc)) e st).
Proof.
  intros H1 H2 H3. unfold feed. cbn [pmode pexpect pstack]. units.
Qed.

Lemma feed_short_escape (x u : N) (acc rest : jsstring) (e : expect) (st : list frame) :
  x <> 117%N -> escape_value x = Some u ->
  feed_all ([92%N; x] ++ rest) (mkP (InStr acc) e st) =
  feed_all rest (mkP (InStr (u :: acc)) e st).
Proof.
  intros Hx Hu. cbn [app feed_all]. unfold feed at 1. cbn [pmode pexpect pstack].
  change (92 =? 34)%N with false. change (92 =? 92)%N with true. cbv iota.
  unfold feed at 1. cbn [pmode pexpect pstack].
  destruct (N.eqb_spec x 117); [contradiction|]. rewrite Hu. reflexivity.
Qed.

(** One escaped or copied code unit is read back as itself. *)
Lemma feed_quote_unit (c : N) (acc rest : jsstring) (e : expect) (st : list frame) :
  feed_all (quote_unit c ++ rest) (mkP (InStr acc) e st) =
  feed_all rest (mkP (InStr (c :: acc)) e st).
Proof.
  unfold quote_unit.
  destruct (N.eqb_spec c 8) as [->|]; [apply feed_short_escape; [discriminate | reflexivity]|].
  destruct (N.eqb_spec c 9) as [->|]; [apply feed_short_escape; [discriminate | reflexivity]|].
  destruct (N.eqb_spec c 10) as [->|]; [apply feed_short_escape; [discriminate | reflexivity]|].
  destruct (N.eqb_spec c 12) as [->|]; [apply feed_short_escape; [discriminate | reflexivity]|].
  destruct (N.eqb_spec c 13) as [->|]; [apply feed_short_escape; [discriminate | reflexivity]|].
  destruct (N.eqb_spec c 34) as [->|]; [apply feed_short_escape; [discriminate | reflexivity]|].
  destruct (N.eqb_spec c 92) as [->|]; [apply feed_short_escape; [discriminate | reflexivity]|].
  destruct ((c <? 32)%N || is_high_surrogate c || is_low_surrogate c) eqn:Hesc.
  - apply feed_unicode_escape.
    unfold is_high_surrogate, is_low_surrogate in Hesc.
    revert Hesc. units.
  - cbn [app feed_all]. rewrite feed_raw; auto.
    apply orb_false_iff in Hesc as [Hesc _].
    apply orb_false_iff in Hesc as [Hesc _].
    apply N.ltb_ge in Hesc. exact Hesc.
Qed.

Lemma surrogate_is_raw (c : N) :
  is_high_surrogate c = true \/ is_low_surrogate c = true ->
  (32 <= c)%N /\ c <> 34%N /\ c <> 92%N.
Proof.
  unfold is_high_surrogate, is_low_surrogate.
  intros [H | H]; apply andb_true_iff in H as [H1 H2];
    apply N.leb_le in H1, H2; lia.
Qed.

(** The body of a quoted string is read back code unit by code unit. The
    statement covers a string and the same string with one more unit in
    front, which is what the two-unit step of [quote_body] needs. *)
Lemma feed_quote_body (s : jsstring) :
  (forall acc rest e st,
     feed_all (quote_body s ++ rest) (mkP (InStr acc) e st) =
     feed_all rest (mkP (InStr (rev s ++ acc)) e st)) /\
  (forall c acc rest e st,
     feed_all (quote_body (c :: s) ++ rest) (mkP (InStr acc) e st) =
     feed_all rest (mkP (InStr (rev (c :: s) ++ acc)) e st)).
Proof.
  induction s as [|x r [IH1 IH2]].
  - split; [reflexivity|].
    intros c acc rest e st. cbn [quote_body rev app].
    destruct (is_high_surrogate c); rewrite ?app_nil_r; apply feed_quote_unit.
  - split; [apply IH2|].
    intros c acc rest e st.
    assert (Hunit : feed_all ((quote_unit c ++ quote_body (x :: r)) ++ rest)
                      (mkP (InStr acc) e st) =
                    feed_all rest (mkP (InStr (rev (c :: x :: r) ++ acc)) e st)).
    { rewrite <- app_assoc, feed_quote_unit, IH2.
      cbn [rev]. rewrite <- !app_assoc. reflexivity. }
    cbn [quote_body].
    destruct (is_high_surrogate c) eqn:Hc; [|exact Hunit].
    destruct (is_low_surrogate x) eqn:Hx; [|exact Hunit].
    destruct (surrogate_is_raw c (or_introl Hc)) as (C1 & C2 & C3).
    destruct (surrogate_is_raw x (or_intror Hx)) as (X1 & X2 & X3).
    cbn [app feed_all]. rewrite !feed_raw by assumption.
    rewrite IH1. cbn [rev]. rewrite <- !app_assoc. reflexivity.
Qed.

(** A quoted string, met where a value or a key may start, is read back
    as the string. *)
Lemma feed_quote (s rest : jsstring) (e : expect) (st : list frame) :
  value_expected e || key_expected e = true ->
  feed_all (quote s ++ rest) (mkP Idle e st) =
  match string_done s e st with
  | Some p => feed_all rest p
  | None => None
  end.
Proof.
  intros He. unfold quote. rewrite <- !app_assoc.
  cbn [app feed_all]. unfold feed at 1. cbn [pmode pexpect pstack].
  unfold feed_idle. change (is_json_whitespace 34) with false.
  change (34 =? 34)%N with true. cbv iota. rewrite He.
  destruct (feed_quote_body s) as [H _]. rewrite H.
  cbn [app feed_all]. unfold feed at 1. cbn [pmode pexpect pstack].
  change (34 =? 34)%N with true. cbv iota.
  rewrite app_nil_r, rev_involutive. reflexivity.
Qed.

Lemma stringify_diagram (n c : jsstring) :
  stringify (diagram n c) =
  [123%N] ++ quote (js "name") ++ [58%N] ++ quote n ++ [44%N]
  ++ quote (js "code") ++ [58%N] ++ quote c ++ [125%N].
Proof.
  unfold diagram. cbn [stringify List.map join fst snd].
  rewrite <- !app_assoc. reflexivity.
Qed.

(** A serialised diagram, met where a value may start, is read back as
    the diagram. *)
Lemma feed_diagram (n c rest : jsstring) (e : expect) (st : list frame) :
  value_expected e = true ->
  feed_all (stringify (diagram n c) ++ rest) (mkP Idle e st) =
  match deliver (diagram n c) st with
  | Some p => feed_all rest p
  | None => None
  end.
Proof.
  intros He. rewrite stringify_diagram. rewrite <- !app_assoc.
  cbn [app feed_all]. unfold feed at 1. cbn [pmode pexpect pstack].
  unfold feed_idle. change (is_json_whitespace 123) with false.
  change (123 =? 34)%N with false. change (123 =? 91)%N with false.
  change (123 =? 123)%N with true. cbv iota. rewrite He.
  rewrite feed_quote by reflexivity.
  cbn [string_done value_expected key_expected app feed_all].
  unfold feed at 1. cbn [pmode pexpect pstack]. unfold feed_idle.
  change (is_json_whitespace 58) with false.
  change (58 =? 34)%N with false. change (58 =? 91)%N with false.
  change (58 =? 123)%N with false. change (58 =? 93)%N with false.
  change (58 =? 125)%N with false. change (58 =? 44)%N with false.
  change (58 =? 58)%N with true. cbv iota.
  rewrite feed_quote by reflexivity.
  cbn [string_done value_expected key_expected deliver app feed_all].
  unfold feed at 1. cbn [pmode pexpect pstack]. unfold feed_idle.
  change (is_json_whitespace 44) with false.
  change (44 =? 34)%N with false. change (44 =? 91)%N with false.
  change (44 =? 123)%N with false. change (44 =? 93)%N with false.
  change (44 =? 125)%N with false. change (44 =? 44)%N with true. cbv iota.
  rewrite feed_quote by reflexivity.
  cbn [string_done value_expected key_expected app feed_all].
  unfold feed at 1. cbn [pmode pexpect pstack]. unfold feed_idle.
  change (is_json_whitespace 58) with false.
  change (58 =? 34)%N with false. change (58 =? 91)%N with false.
  change (58 =? 123)%N with false. change (58 =? 93)%N with false.
  change (58 =? 125)%N with false. change (58 =? 44)%N with false.
  change (58 =? 58)%N with true. cbv iota.
  rewrite feed_quote by reflexivity.
  cbn [string_done value_expected key_expected deliver app feed_all].
  unfold feed at 1. cbn [pmode pexpect pstack]. unfold feed_idle.
  change (is_json_whitespace 125) with false.
  change (125 =? 34)%N with false. change (125 =? 91)%N with false.
  change (125 =? 123)%N with false. change (125 =? 93)%N with false.
  change (125 =? 125)%N with true. cbv iota.
  reflexivity.
Qed.

(** The elements of a serialised sequence, met inside an open array, are
    read back in order and the array is closed. *)
Lemma feed_elements (l : list SavedDiagram) :
  forall (x : SavedDiagram) (items : list jsval) (e : expect)
         (st : list frame) (rest : jsstring),
    value_expected e = true ->
    feed_all
      (join (List.map stringify
               (List.map (fun d => diagram (name d) (text d)) (x :: l)))
       ++ 93%N :: rest)
      (mkP Idle e (FArr items :: st)) =
    match
      deliver
        (JArr (rev (rev (List.map (fun d => diagram (name d) (text d)) (x :: l))
                    ++ items))) st
    with
    | Some p => feed_all rest p
    | None => None
    end.
Proof.
  induction l as [|y r IH]; intros x items e st rest He.
  - cbn [List.map join]. rewrite feed_diagram by exact He.
    cbn [deliver feed_all rev app]. reflexivity.
  - change (join (List.map stringify
               (List.map (fun d => diagram (name d) (text d)) (x :: y :: r))))
      with (stringify (diagram (name x) (text x)) ++ [44%N]
            ++ join (List.map stringify
                 (List.map (fun d => diagram (name d) (text d)) (y :: r)))).
    rewrite <- !app_assoc. rewrite feed_diagram by exact He.
    cbn [deliver app feed_all]. unfold feed at 1. cbn [pmode pexpect pstack].
    unfold feed_idle. change (is_json_whitespace 44) with false.
    change (44 =? 34)%N with false. change (44 =? 91)%N with false.
    change (44 =? 123)%N with false. change (44 =? 93)%N with false.
    change (44 =? 125)%N with false. change (44 =? 44)%N with true. cbv iota.
    rewrite IH by reflexivity.
    replace (rev (List.map (fun d => diagram (name d) (text d)) (y :: r))
             ++ diagram (name x) (text x) :: items)
      with (rev (List.map (fun d => diagram (name d) (text d)) (x :: y :: r))
            ++ items).
    + reflexivity.
    + cbn [List.map rev]. rewrite <- !app_assoc. reflexivity.
Qed.

(** Deserialising a serialised sequence of saved diagrams gives the
    sequence back. *)
Lemma parse_stringify_diagrams (l : list SavedDiagram) :
  JSON_parse (JSON_stringify (diagrams_js l)) = Ok (diagrams_js l).
Proof.
  destruct l as [|x r]; [reflexivity|].
  unfold JSON_parse, JSON_stringify, diagrams_js.
  cbn [stringify]. cbn [app feed_all]. unfold feed at 1.
  cbn [pmode pexpect pstack]. unfold feed_idle.
  change (is_json_whitespace 91) with false.
  change (91 =? 34)%N with false. change (91 =? 91)%N with true. cbv iota.
  cbn [value_expected].
  change [93%N] with (93%N :: []).
  rewrite feed_elements by reflexivity.
  cbn [deliver feed_all finish pmode pexpect].
  rewrite app_nil_r, rev_involutive. reflexivity.
Qed.

Lemma stringify_not_empty (l : list jsval) : is_empty (JSON_stringify (JArr l)) = false.
Proof. reflexivity. Qed.

Lemma filter_index_past (l : list jsval) (i index : nat) :
  (index < i)%nat -> filter_index i index l = l.
Proof.
  revert i. induction l as [|x r IH]; intros i H; simpl; [reflexivity|].
  destruct (Nat.eqb_spec i index); [lia|].
  rewrite IH by lia. reflexivity.
Qed.

Lemma filter_index_removes (l : list SavedDiagram) (i k : nat) :
  filter_index i (i + k) (List.map (fun d => diagram (name d) (text d)) l) =
  List.map (fun d => diagram (name d) (text d)) (remove_at k l).
Proof.
  revert i k. induction l as [|x r IH]; intros i k.
  - unfold remove_at. destruct k; reflexivity.
  - cbn [List.map filter_index].
    destruct k as [|k].
    + rewrite Nat.add_0_r, Nat.eqb_refl.
      rewrite filter_index_past by lia. reflexivity.
    + destruct (Nat.eqb_spec i (i + S k)); [lia|].
      replace (i + S k)%nat with (S i + k)%nat by lia.
      rewrite IH. reflexivity.
Qed.

(** What the page holds as saved diagrams once it has mounted. *)
Lemma mount_loads (s : State) :
  mounted s = false ->
  mounted (step Mount s) = true /\
  localStorage (step Mount s) = localStorage s /\
  savedDiagrams (step Mount s) =
    match localStorage s with
    | None => savedDiagrams s
    | Some saved =>
        if is_empty saved then savedDiagrams s
        else match JSON_parse saved with
             | Ok v => v
             | Throw _ => savedDiagrams s
             end
    end.
Proof.
  intros Hm. simpl. rewrite Hm. unfold commit. simpl. rewrite Hm. simpl.
  rewrite orb_true_r. simpl.
  unfold load_saved, mermaid_initialize, sync_theme, arm. simpl.
  split_tests; simpl in *; repeat split; congruence.
Qed.

(* ------------------------------------------------------------------ *)
(** *** Saved diagrams and the store *)




(* ------------------------------------------------------------------ *)
(** *** Stored content that was cut short *)

Lemma feed_all_app (a b : jsstring) (p : pstate) :
  feed_all (a ++ b) p =
  match feed_all a p with
  | Some p' => feed_all b p'
  | None => None
  end.
Proof.
  revert p. induction a as [|c a IH]; intros p; simpl; [reflexivity|].
  destruct (feed c p); [apply IH | reflexivity].
Qed.

Lemma deliver_closed (v : jsval) (st : list frame) (p : pstate) :
  deliver v st = Some p -> closed_only_when_done p.
Proof.
  unfold deliver, closed_only_when_done.
  destruct st as [|[items | fields [k|]] st]; intros H; try discriminate;
    injection H as <-; simpl; intros H; try discriminate.
  split; [reflexivity | eauto].
Qed.

Lemma deliver_open (v : jsval) (f : frame) (st : list frame) (p : pstate) :
  deliver v (f :: st) = Some p -> pstack p <> [].
Proof.
  unfold deliver. destruct f as [items | fields [k|]]; intros H; try discriminate;
    injection H as <-; simpl; discriminate.
Qed.

Lemma feed_idle_closed (c : N) (e : expect) (st : list frame) (p : pstate) :
  (st = [] -> exists v, e = EDone v) ->
  feed_idle c e st = Some p -> closed_only_when_done p.
Proof.
  intros Hst. unfold feed_idle.
  assert (Hval : value_expected e = true -> st <> []).
  { intros He ->. destruct (Hst eq_refl) as [v ->]. discriminate. }
  assert (Hkey : key_expected e = true -> st <> []).
  { intros He ->. destruct (Hst eq_refl) as [v ->]. discriminate. }
  assert (Hopen : forall m e', st <> [] -> closed_only_when_done (mkP m e' st)).
  { intros m e' Hne H. contradiction. }
  destruct (is_json_whitespace c).
  { intros H. injection H as <-. intros H. simpl in *. split; [reflexivity | auto]. }
  destruct (c =? 34)%N.
  { destruct (value_expected e) eqn:Ev; [| destruct (key_expected e) eqn:Ek]; simpl;
      intros H; try discriminate; injection H as <-; apply Hopen; auto. }
  destruct (c =? 91)%N.
  { destruct (value_expected e); intros H; try discriminate.
    injection H as <-. intros H. discriminate. }
  destruct (c =? 123)%N.
  { destruct (value_expected e); intros H; try discriminate.
    injection H as <-. intros H. discriminate. }
  destruct (c =? 93)%N.
  { destruct e, st as [|[items | fields k] st']; intros H; try discriminate;
      apply deliver_closed in H; exact H. }
  destruct (c =? 125)%N.
  { destruct e, st as [|[items | fields [k|]] st']; intros H; try discriminate;
      apply deliver_closed in H; exact H. }
  destruct (c =? 44)%N.
  { destruct e, st as [|[items | fields [k|]] st']; intros H; try discriminate;
      injection H as <-; intros H; discriminate. }
  destruct (c =? 58)%N.
  { destruct e; intros H; try discriminate. injection H as <-.
    intros H. simpl in H. destruct (Hst H) as [v Hv]. discriminate. }
  destruct (value_expected e) eqn:Ev; [|discriminate].
  specialize (Hval eq_refl).
  repeat match goal with
         | |- context [if ?b then _ else _] => destruct b
         end;
    intros H; try discriminate; injection H as <-; apply Hopen; exact Hval.
Qed.

Lemma feed_closed (c : N) (p p' : pstate) :
  closed_only_when_done p -> feed c p = Some p' -> closed_only_when_done p'.
Proof.
  intros Hp. unfold feed.
  destruct p as [m e st]. unfold closed_only_when_done in Hp. simpl in *.
  assert (Hopen : forall m' e', st <> [] -> closed_only_when_done (mkP m' e' st)).
  { intros m' e' Hne H. contradiction. }
  destruct m as [| acc | acc | acc n v | ns lit | rest v].
  - apply feed_idle_closed. intros H. destruct (Hp H) as [_ Hv]. exact Hv.
  - assert (Hne : st <> []) by (intros H; destruct (Hp H) as [Hm _]; discriminate).
    destruct (c =? 34)%N.
    { unfold string_done. destruct (value_expected e).
      - apply deliver_closed.
      - destruct (key_expected e); [|discriminate].
        destruct st as [|[items | fields [k|]] st']; intros H; try discriminate.
        injection H as <-. intros H. discriminate. }
    destruct (c =? 92)%N; [intros H; injection H as <-; apply Hopen, Hne|].
    destruct (c <? 32)%N; [discriminate|].
    intros H. injection H as <-. apply Hopen, Hne.
  - assert (Hne : st <> []) by (intros H; destruct (Hp H) as [Hm _]; discriminate).
    destruct (c =? 117)%N; [intros H; injection H as <-; apply Hopen, Hne|].
    destruct (escape_value c); [|discriminate].
    intros H. injection H as <-. apply Hopen, Hne.
  - assert (Hne : st <> []) by (intros H; destruct (Hp H) as [Hm _]; discriminate).
    destruct (hex_value c); [|discriminate].
    destruct (n =? 3)%nat; intros H; injection H as <-; apply Hopen, Hne.
  - assert (Hne : st <> []) by (intros H; destruct (Hp H) as [Hm _]; discriminate).
    destruct (num_step ns c); [intros H; injection H as <-; apply Hopen, Hne|].
    destruct (num_accepting ns); [|discriminate].
    destruct st as [|f st']; [contradiction|].
    destruct (deliver (JNum (rev lit)) (f :: st')) as [p1|] eqn:Hd; [|discriminate].
    apply feed_idle_closed. intros H.
    apply deliver_open in Hd. contradiction.
  - assert (Hne : st <> []) by (intros H; destruct (Hp H) as [Hm _]; discriminate).
    destruct rest as [|x rest']; [discriminate|].
    destruct (c =? x)%N; [|discriminate].
    destruct rest'; [apply deliver_closed|].
    intros H. injection H as <-. apply Hopen, Hne.
Qed.

Lemma feed_all_closed (s : jsstring) (p p' : pstate) :
  closed_only_when_done p -> feed_all s p = Some p' -> closed_only_when_done p'.
Proof.
  revert p. induction s as [|c r IH]; intros p Hp; simpl.
  - intros H. injection H as <-. exact Hp.
  - destruct (feed c p) as [p1|] eqn:Hf; [|discriminate].
    apply IH. apply (feed_closed c p p1 Hp Hf).
Qed.

(** Once a whole value has been read, only white space may follow. *)
Lemma done_then_whitespace (rest : jsstring) (v : jsval) (st : list frame) (p' : pstate) :
  feed_all rest (mkP Idle (EDone v) st) = Some p' ->
  forallb is_json_whitespace rest = true.
Proof.
  induction rest as [|c r IH]; simpl; [reflexivity|].
  unfold feed. simpl. unfold feed_idle.
  destruct (is_json_whitespace c); [exact IH|].
  simpl.
  repeat match goal with
         | |- context [if ?b then _ else _] => destruct b
         end; try discriminate;
  destruct st as [|[items | fields [k|]] st']; discriminate.
Qed.

(** A text that parses, starts with an opening bracket and does not end
    in white space: none of its proper prefixes parses. *)
Lemma proper_prefix_rejected (pre suf : jsstring) (last : N) (v : jsval) :
  JSON_parse (91%N :: pre ++ suf ++ [last]) = Ok v ->
  is_json_whitespace last = false ->
  JSON_parse (91%N :: pre) = Throw SyntaxError.
Proof.
  intros Hparse Hlast.
  unfold JSON_parse in *.
  change (feed_all (91%N :: pre ++ suf ++ [last]) (mkP Idle EValue []))
    with (feed_all (pre ++ suf ++ [last]) (mkP Idle EValueOrClose [FArr []]))
    in Hparse.
  change (feed_all (91%N :: pre) (mkP Idle EValue []))
    with (feed_all pre (mkP Idle EValueOrClose [FArr []])).
  rewrite feed_all_app in Hparse.
  destruct (feed_all pre (mkP Idle EValueOrClose [FArr []])) as [p|] eqn:Hpre;
    [|reflexivity].
  assert (Hp : closed_only_when_done p).
  { apply (feed_all_closed pre (mkP Idle EValueOrClose [FArr []]) p); [|exact Hpre].
    intros H. discriminate. }
  destruct (feed_all (suf ++ [last]) p) as [pf|] eqn:Hsuf; [|discriminate].
  destruct (finish p) as [w|] eqn:Hfin; [|reflexivity].
  exfalso. unfold finish in Hfin.
  destruct p as [m e st]. simpl in Hfin.
  destruct m as [| acc | acc | acc n x | ns lit | rest x]; try discriminate.
  - destruct e; try discriminate.
    apply done_then_whitespace in Hsuf.
    rewrite forallb_app in Hsuf. simpl in Hsuf. rewrite Hlast in Hsuf.
    rewrite andb_false_r in Hsuf. discriminate.
  - destruct (num_accepting ns); [|discriminate].
    destruct st as [|f st'].
    + destruct (Hp eq_refl) as [Hm _]. discriminate.
    + destruct (deliver (JNum (rev lit)) (f :: st')) as [p1|] eqn:Hd; [|discriminate].
      destruct f as [items | fields [k|]]; simpl in Hd; try discriminate;
        injection Hd as <-; discriminate.
Qed.

(** Every truncation of a stored sequence of diagrams is rejected by
    [JSON.parse]. *)
Lemma truncated_store_is_rejected (l : list SavedDiagram) (pre suf : jsstring) :
  JSON_stringify (diagrams_js l) = pre ++ suf -> suf <> [] ->
  JSON_parse pre = Throw SyntaxError.
Proof.
  intros Hsplit Hsuf.
  pose proof (parse_stringify_diagrams l) as Hparse.
  destruct (exists_last Hsuf) as (suf' & last & ->).
  unfold JSON_stringify, diagrams_js in Hsplit. cbn [stringify] in Hsplit.
  set (body := join (List.map stringify
                       (List.map (fun d => diagram (name d) (text d)) l))) in *.
  assert (Hlast : last = 93%N).
  { change ([91%N] ++ body ++ [93%N]) with ((91%N :: body) ++ [93%N]) in Hsplit.
    rewrite app_assoc in Hsplit. apply app_inj_tail in Hsplit as [_ H]. auto. }
  subst last.
  destruct pre as [|c pre']; [reflexivity|].
  assert (Hc : c = 91%N) by (simpl in Hsplit; congruence).
  subst c.
  unfold JSON_stringify, diagrams_js in Hparse. cbn [stringify] in Hparse.
  fold body in Hparse. rewrite Hsplit in Hparse.
  change ((91%N :: pre') ++ suf' ++ [93%N])
    with (91%N :: pre' ++ suf' ++ [93%N]) in Hparse.
  exact (proper_prefix_rejected pre' suf' 93 _ Hparse eq_refl).
Qed.

Lemma rejected_store_loads_nothing
    (th : UiTheme) (sys : SystemTheme) (blob : jsstring) :
  JSON_parse blob = Throw SyntaxError ->
  savedDiagrams (step Mount (initial th sys (Some blob))) = JArr [].
Proof.
  intros Hp.
  destruct (mount_loads (initial th sys (Some blob))) as (_ & _ & Hs); [reflexivity|].
  rewrite Hs. cbn [localStorage initial savedDiagrams]. rewrite Hp.
  destruct (is_empty blob); reflexivity.
Qed.


(** Content that parses is loaded as parsed, whatever its shape. *)
Lemma parsed_store_is_loaded_as_parsed
    (th : UiTheme) (sys : SystemTheme) (blob : jsstring) (v : jsval) :
  JSON_parse blob = Ok v ->
  savedDiagrams (step Mount (initial th sys (Some blob))) = v.
Proof.
  intros Hp.
  destruct (mount_loads (initial th sys (Some blob))) as (_ & _ & Hs); [reflexivity|].
  rewrite Hs. cbn [localStorage initial savedDiagrams]. rewrite Hp.
  destruct blob; [discriminate Hp | reflexivity].
Qed.

(* ================================================================== *)
(** ** Further properties of the component *)
(* ================================================================== *)

(* ------------------------------------------------------------------ *)
(** *** What the handlers leave alone *)

Lemma commit_keeps (s s' : State) :
  zoom (commit s s') = zoom s' /\
  editorWidth (commit s s') = editorWidth s' /\
  isResizing (commit s s') = isResizing s' /\
  fullscreenElement (commit s s') = fullscreenElement s' /\
  showSidebar (commit s s') = showSidebar s' /\
  now (commit s s') = now s' /\
  localStorage (commit s s') = localStorage s' /\
  code (commit s s') = code s' /\
  mounted (commit s s') = mounted s'.
Proof. unfold commit. frame. Qed.

Lemma commit_saved (s s' : State) :
  mounted s' = mounted s -> savedDiagrams (commit s s') = savedDiagrams s'.
Proof.
  intros Hm. unfold commit. rewrite Hm, Bool.eqb_reflx. simpl.
  rewrite !orb_false_r. frame.
Qed.

Lemma commit_zoom (s s' : State) : zoom (commit s s') = zoom s'.
Proof. apply commit_keeps. Qed.

Lemma commit_editorWidth (s s' : State) : editorWidth (commit s s') = editorWidth s'.
Proof. apply commit_keeps. Qed.

Lemma commit_isResizing (s s' : State) : isResizing (commit s s') = isResizing s'.
Proof. apply commit_keeps. Qed.

Lemma commit_fullscreenElement (s s' : State) :
  fullscreenElement (commit s s') = fullscreenElement s'.
Proof. apply commit_keeps. Qed.

Lemma commit_now (s s' : State) : now (commit s s') = now s'.
Proof. apply commit_keeps. Qed.

Lemma commit_localStorage (s s' : State) : localStorage (commit s s') = localStorage s'.
Proof. apply commit_keeps. Qed.

Lemma commit_code (s s' : State) : code (commit s s') = code s'.
Proof. apply commit_keeps. Qed.

Lemma commit_mounted (s s' : State) : mounted (commit s s') = mounted s'.
Proof. apply commit_keeps. Qed.

Lemma commit_inflight (s s' : State) : inflight (commit s s') = inflight s'.
Proof. apply commit_frame. Qed.

Lemma commit_idCounter (s s' : State) : idCounter (commit s s') = idCounter s'.
Proof. apply commit_frame. Qed.

Lemma commit_diagramHTML (s s' : State) :
  diagramHTML (commit s s') = diagramHTML s'.
Proof. apply commit_frame. Qed.

Create Rewrite HintDb through_commit.
#[local] Hint Rewrite commit_zoom commit_editorWidth commit_isResizing
  commit_fullscreenElement commit_now commit_localStorage commit_code
  commit_mounted commit_inflight commit_idCounter commit_diagramHTML
  commit_error commit_isFullscreen : through_commit.

(** Either the timer is as the handler left it, or it was armed anew. *)
Lemma commit_timer (s s' : State) :
  timer (commit s s') = timer s' \/
  exists cl, timer (commit s s') = Some (mkTimer (now s' + 500) cl).
Proof.
  unfold commit, load_saved, arm, mermaid_initialize, sync_theme.
  split_tests; simpl; eauto.
Qed.

(* ------------------------------------------------------------------ *)
(** *** Target ids *)

Lemma js_injective (a b : string) : js a = js b -> a = b.
Proof.
  unfold js. intros H.
  rewrite <- (string_of_list_ascii_of_string a), <- (string_of_list_ascii_of_string b).
  f_equal. revert H.
  generalize (list_ascii_of_string a) (list_ascii_of_string b).
  induction l as [|x l IH]; intros [|y l']; simpl; intros H; try discriminate.
  - reflexivity.
  - injection H as Hxy Hl. f_equal; [|apply IH, Hl].
    rewrite <- (ascii_N_embedding x), <- (ascii_N_embedding y), Hxy. reflexivity.
Qed.

Lemma decimal_injective (n m : N) : decimal n = decimal m -> n = m.
Proof.
  unfold decimal. intros H. apply js_injective in H.
  apply (f_equal NilEmpty.uint_of_string) in H.
  rewrite !NilEmpty.usu in H. injection H as H.
  apply (f_equal N.of_uint) in H.
  rewrite !DecimalN.Unsigned.of_to in H. exact H.
Qed.

Lemma diagram_id_injective (n m : N) : diagram_id n = diagram_id m -> n = m.
Proof.
  unfold diagram_id. intros H. apply app_inv_head in H.
  apply decimal_injective, H.
Qed.

Lemma take_call_split (k : N) (l : list RenderCall) (c : RenderCall)
    (r : list RenderCall) :
  take_call k l = Some (c, r) ->
  call_id c = k /\ exists l1 l2, l = l1 ++ c :: l2 /\ r = l1 ++ l2.
Proof.
  revert c r. induction l as [|x l IH]; intros c r; simpl; [discriminate|].
  destruct (N.eqb_spec (call_id x) k) as [Hk | Hk].
  - intros H. injection H as <- <-. split; [exact Hk|]. exists [], l. auto.
  - destruct (take_call k l) as [[c' r']|]; [|discriminate].
    intros H. injection H as <- <-.
    destruct (IH c' r' eq_refl) as (Hc & l1 & l2 & -> & ->).
    split; [exact Hc|]. exists (x :: l1), l2. auto.
Qed.

Lemma ids_fresh_frame (s s' : State) :
  inflight s' = inflight s -> idCounter s' = idCounter s ->
  ids_fresh s -> ids_fresh s'.
Proof. unfold ids_fresh. intros -> ->. auto. Qed.

Lemma renderDiagram_ids (cl : Closure) (s : State) :
  ids_fresh s -> ids_fresh (renderDiagram cl s).
Proof.
  intros [Hlt Hnd]. unfold renderDiagram.
  destruct (negb _ || _ || _); [split; assumption|].
  unfold ids_fresh. simpl. split.
  - apply Forall_app. split.
    + eapply Forall_impl; [|exact Hlt]. simpl. intros c Hc. lia.
    + constructor; [simpl; lia | constructor].
  - rewrite List.map_app. simpl.
    apply NoDup_app; [exact Hnd | constructor; [intros [] | constructor] |].
    intros x Hx [<- | []].
    apply in_map_iff in Hx as (c & Hc & Hin).
    rewrite Forall_forall in Hlt. specialize (Hlt c Hin). lia.
Qed.

Lemma resume_keeps (c : RenderCall) (s : State) :
  inflight (resume c s) = inflight s /\ idCounter (resume c s) = idCounter s /\
  zoom (resume c s) = zoom s /\ editorWidth (resume c s) = editorWidth s /\
  savedDiagrams (resume c s) = savedDiagrams s /\
  localStorage (resume c s) = localStorage s.
Proof. frame. Qed.

Lemma settle_ids (k : N) (s : State) : ids_fresh s -> ids_fresh (settle k s).
Proof.
  intros [Hlt Hnd]. unfold Editor.settle.
  destruct (take_call k (inflight s)) as [[c r]|] eqn:Ht; [|split; assumption].
  destruct (take_call_split _ _ _ _ Ht) as (_ & l1 & l2 & Hl & ->).
  pose proof (resume_keeps c (set_inflight (l1 ++ l2) s)) as (Hi & Hc & _).
  unfold ids_fresh. rewrite Hi, Hc. simpl.
  rewrite Hl in Hlt, Hnd. split.
  - apply Forall_app in Hlt as [H1 H2]. apply Forall_app. split; [exact H1|].
    inversion H2; assumption.
  - rewrite List.map_app in *. simpl in Hnd. apply NoDup_remove_1 in Hnd. exact Hnd.
Qed.

Lemma step_ids (e : Event) (s : State) : ids_fresh s -> ids_fresh (step e s).
Proof.
  intros H.
  destruct e; simpl;
    try (apply (ids_fresh_frame s); [| |exact H];
         rewrite ?commit_inflight, ?commit_idCounter; frame; fail);
    try exact H.
  - destruct (mounted s); [exact H|].
    apply (ids_fresh_frame s); [| |exact H];
      rewrite ?commit_inflight, ?commit_idCounter; reflexivity.
  - unfold advance. simpl. destruct (timer s) as [t|]; [|exact H].
    destruct (deadline t <=? now s + dt)%N; [|exact H].
    apply renderDiagram_ids. exact H.
  - apply settle_ids, H.
Qed.

Lemma reachable_ids (s : State) : reachable s -> ids_fresh s.
Proof.
  induction 1 as [th sys stored | e s _ IH].
  - split; constructor.
  - apply step_ids, IH.
Qed.

Lemma NoDup_map_injective {A B : Type} (f : A -> B) (l : list A) :
  (forall x y, f x = f y -> x = y) -> NoDup l -> NoDup (List.map f l).
Proof.
  intros Hf. induction 1 as [|x l Hx _ IH]; simpl; constructor; [|exact IH].
  intros Hin. apply in_map_iff in Hin as (y & Hy & Hin).
  apply Hf in Hy. subst y. contradiction.
Qed.

(** X1. Every render call gets a target id of its own: in every state of
    the session the renders in flight carry pairwise distinct counters,
    all below the current counter, the id strings built from them are
    pairwise distinct, and two counters never give the same id string. *)
Theorem render_ids_are_unique (s : State) :
  reachable s ->
  Forall (fun c => (call_id c < idCounter s)%N) (inflight s) /\
  NoDup (List.map call_id (inflight s)) /\
  NoDup (List.map (fun c => diagram_id (call_id c)) (inflight s)) /\
  (forall n m, diagram_id n = diagram_id m -> n = m).
Proof.
  intros Hr. destruct (reachable_ids s Hr) as [Hlt Hnd].
  split; [exact Hlt|]. split; [exact Hnd|]. split; [|apply diagram_id_injective].
  rewrite <- (List.map_map call_id diagram_id).
  apply NoDup_map_injective; [|exact Hnd].
  intros n m. apply diagram_id_injective.
Qed.

(* ------------------------------------------------------------------ *)
(** *** Invariants of the display, the zoom and the timer *)

Lemma artifact_discarded_frame (s s' : State) :
  error s' = error s -> diagramHTML s' = diagramHTML s ->
  artifact_discarded s -> artifact_discarded s'.
Proof. unfold artifact_discarded. intros -> ->. auto. Qed.

Lemma renderDiagram_artifact (cl : Closure) (s : State) :
  artifact_discarded s -> artifact_discarded (renderDiagram cl s).
Proof.
  intros H. unfold renderDiagram.
  destruct (negb _ || _ || _); [exact H|].
  intros He. simpl in He. discriminate.
Qed.

Lemma setError_artifact (m : option jsstring) (s : State) :
  artifact_discarded (setError (message_of m) s).
Proof.
  intros _. unfold setError. cbn [diagramHTML set_diagramHTML].
  rewrite message_of_not_empty. reflexivity.
Qed.

Lemma settle_artifact (k : N) (s : State) :
  artifact_discarded s -> artifact_discarded (settle k s).
Proof.
  intros H. unfold Editor.settle.
  destruct (take_call k (inflight s)) as [[c r]|]; [|exact H].
  unfold Editor.resume.
  destruct (mermaid_render _ _ _) as [svg | m]; [|apply setError_artifact].
  destruct (diagramRef_current (set_inflight r s)) eqn:Hd; [|apply setError_artifact].
  intros He. cbn [error set_diagramHTML set_inflight] in He.
  unfold diagramRef_current in Hd. cbn [error mounted set_inflight] in Hd.
  rewrite He, andb_false_r in Hd. discriminate.
Qed.

Lemma step_artifact (e : Event) (s : State) :
  artifact_discarded s -> artifact_discarded (step e s).
Proof.
  intros H.
  destruct e; simpl;
    try (apply (artifact_discarded_frame s); [| |exact H];
         rewrite ?commit_error, ?commit_diagramHTML; frame; fail);
    try exact H.
  - destruct (mounted s); [exact H|].
    apply (artifact_discarded_frame s); [| |exact H];
      rewrite ?commit_error, ?commit_diagramHTML; reflexivity.
  - unfold advance. simpl. destruct (timer s) as [t|]; [|exact H].
    destruct (deadline t <=? now s + dt)%N; [|exact H].
    apply renderDiagram_artifact. exact H.
  - apply settle_artifact, H.
Qed.


Lemma step_zoom (e : Event) (s : State) :
  e <> ZoomIn -> e <> ZoomOut -> zoom (step e s) = zoom s.
Proof.
  intros Hi Ho.
  destruct e; simpl; try congruence;
    quiet_event.
Qed.

Lemma step_zoom_on_grid (e : Event) (s : State) :
  zoom_on_grid s -> zoom_on_grid (step e s).
Proof.
  intros (k & Hk & Hz).
  assert (Hin : e = ZoomIn \/ e = ZoomOut \/ (e <> ZoomIn /\ e <> ZoomOut))
    by (destruct e; auto; right; right; split; discriminate).
  destruct Hin as [-> | [-> | [Hi Ho]]].
  - exists (Z.min (k + 1) 15).
    change (zoom (step ZoomIn s)) with (Z.min (zoom s + 10) 200).
    rewrite Hz. lia.
  - exists (Z.max (k - 1) 0).
    change (zoom (step ZoomOut s)) with (Z.max (zoom s - 10) 50).
    rewrite Hz. lia.
  - exists k. rewrite step_zoom by assumption. auto.
Qed.

(** X3. The zoom level is always one of 50, 60, ..., 200, so the scale
    applied to the diagram is between one half and two; and only the two
    zoom buttons change it. *)
Theorem zoom_stays_on_grid (s : State) :
  reachable s ->
  (exists k, (0 <= k <= 15)%Z /\ zoom s = (50 + 10 * k)%Z) /\
  (50 <= zoom s <= 200)%Z /\
  (forall e, e <> ZoomIn -> e <> ZoomOut -> zoom (step e s) = zoom s).
Proof.
  intros Hr.
  assert (Hg : zoom_on_grid s).
  { induction Hr as [th sys stored | e s _ IH].
    - exists 5%Z. split; [lia | reflexivity].
    - apply step_zoom_on_grid, IH. }
  split; [exact Hg|]. split.
  - destruct Hg as (k & Hk & ->). lia.
  - intros e. apply step_zoom.
Qed.

(* ------------------------------------------------------------------ *)
(** *** Events that have nothing to do with rendering *)

(** X4. Zooming, dragging the splitter, fullscreen requests and
    notifications, saving, deleting, the sidebar, exports and the
    clipboard never schedule, cancel, delay or start a render, and never
    touch what is displayed: the text, the theme, the pending timer, the
    clock, the renders in flight, the id counter, the error and the svg are
    as before. *)
Theorem unrelated_events_leave_pipeline (e : Event) (s : State) :
  pipeline_event e = false ->
  code (step e s) = code s /\
  mermaidTheme (step e s) = mermaidTheme s /\
  mermaidConfig (step e s) = mermaidConfig s /\
  timer (step e s) = timer s /\
  now (step e s) = now s /\
  inflight (step e s) = inflight s /\
  idCounter (step e s) = idCounter s /\
  error (step e s) = error s /\
  diagramHTML (step e s) = diagramHTML s.
Proof.
  intros He. destruct e; try discriminate He; quiet_event.
Qed.

Lemma quiet_timer (e : Event) (s : State) :
  pipeline_event e = false ->
  timer (step e s) = timer s /\ now (step e s) = now s.
Proof.
  intros He. destruct e; try discriminate He; quiet_event.
Qed.

Lemma timer_in_window_frame (s s' : State) :
  timer s' = timer s -> now s' = now s ->
  timer_in_window s -> timer_in_window s'.
Proof. unfold timer_in_window. intros -> ->. auto. Qed.

Lemma commit_window (s s' : State) :
  timer_in_window s' -> timer_in_window (commit s s').
Proof.
  intros H t Ht. rewrite commit_now.
  destruct (commit_timer s s') as [E | (cl & E)]; rewrite E in Ht.
  - apply H, Ht.
  - injection Ht as <-. simpl. lia.
Qed.

Lemma step_timer_window (e : Event) (s : State) :
  timer_in_window s -> timer_in_window (step e s).
Proof.
  intros H.
  destruct (pipeline_event e) eqn:He.
  - destruct e; try discriminate He; simpl.
    + destruct (mounted s); [exact H|]. apply commit_window.
      intros t Ht. simpl in Ht. injection Ht as <-. simpl. lia.
    + apply commit_window. exact H.
    + apply commit_window. exact H.
    + apply commit_window. exact H.
    + apply commit_window. exact H.
    + unfold advance. simpl. destruct (timer s) as [t|] eqn:Ht.
      * destruct (H t Ht) as [H1 H2].
        destruct (N.leb_spec (deadline t) (now s + dt)).
        -- intros t' Ht'.
           pose proof (renderDiagram_frame (callback t)
                         (set_timer None (set_now (now s + dt) s)))
             as (_ & _ & _ & _ & E & _).
           rewrite E in Ht'. discriminate.
        -- intros t' Ht'. simpl in Ht'. rewrite Ht in Ht'. injection Ht' as <-.
           simpl. lia.
      * intros t' Ht'. simpl in Ht'. congruence.
    + pose proof (settle_frame id s) as (_ & _ & _ & _ & Et & En).
      apply (timer_in_window_frame s); assumption.
  - destruct (quiet_timer e s He) as [Et En].
    apply (timer_in_window_frame s); assumption.
Qed.

Lemma reachable_timer_window (s : State) : reachable s -> timer_in_window s.
Proof.
  induction 1 as [th sys stored | e s _ IH].
  - intros t H. discriminate.
  - apply step_timer_window, IH.
Qed.

(** X5. A pending debounce timer is always due within the next 500 ms
    and is never overdue; so after 500 ms without an event nothing is left
    scheduled, whatever happened before. *)
Theorem pending_timer_is_within_window (s : State) (dt : N) :
  reachable s ->
  (forall t, timer s = Some t ->
     (now s < deadline t)%N /\ (deadline t <= now s + 500)%N) /\
  ((500 <= dt)%N -> timer (step (Wait dt) s) = None).
Proof.
  intros Hr. pose proof (reachable_timer_window s Hr) as Hw.
  split; [exact Hw|].
  intros Hdt. simpl. unfold advance. simpl.
  destruct (timer s) as [t|] eqn:Ht; [|simpl; exact Ht].
  destruct (Hw t Ht) as [_ H2].
  destruct (N.leb_spec (deadline t) (now s + dt)); [|lia].
  pose proof (renderDiagram_frame (callback t)
                (set_timer None (set_now (now s + dt) s)))
    as (_ & _ & _ & _ & E & _).
  exact E.
Qed.

(** X6. No stale closure: in every state of the session the pending
    timer carries the current text, and the renderer is configured with
    the selected theme; so when the timer fires and the guard lets the call
    through, the one call it adds is of the text now in the editor under
    the theme now selected. *)
Theorem fired_render_is_of_current_text (s : State) (t : Timer) (dt : N) :
  reachable s -> timer s = Some t -> (deadline t <= now s + dt)%N ->
  cl_code (callback t) = code s /\
  (mounted s = true -> mermaidConfig s = mermaidTheme s) /\
  (diagramRef_current s = true -> whitespace_only (code s) = false ->
   inflight (step (Wait dt) s)
   = inflight s ++ [mkCall (idCounter s) (code s) (mermaidTheme s)] /\
   idCounter (step (Wait dt) s) = (idCounter s + 1)%N /\
   timer (step (Wait dt) s) = None).
Proof.
  intros Hr Ht Hd.
  destruct (reachable_invariants s Hr) as [Htc Hcc].
  destruct (Htc t Ht) as [Hcode Hm].
  split; [exact Hcode|]. split; [exact Hcc|].
  intros Hdiv Hw.
  rewrite (wait_past_deadline s t dt Ht Hd).
  assert (Hmt : mounted s = true).
  { unfold diagramRef_current in Hdiv. apply andb_true_iff in Hdiv. tauto. }
  unfold renderDiagram.
  change (diagramRef_current (set_timer None (set_now (now s + dt) s)))
    with (diagramRef_current s).
  rewrite Hdiv, blank_iff_trim_empty, Hcode, Hw, Hm, Hmt. simpl.
  rewrite (Hcc Hmt). auto.
Qed.

(* ------------------------------------------------------------------ *)
(** *** From a submission to the display *)

Lemma take_call_fresh (k : N) (l : list RenderCall) (c : RenderCall) :
  Forall (fun x => (call_id x < k)%N) l -> call_id c = k ->
  take_call k (l ++ [c]) = Some (c, l).
Proof.
  intros Hl Hc. induction Hl as [|x l Hx _ IH]; simpl.
  - rewrite Hc, N.eqb_refl. reflexivity.
  - destruct (N.eqb_spec (call_id x) k); [lia|]. rewrite IH. reflexivity.
Qed.

(** X7. From a state without a displayed error, a new text that is not
    blank, a pause of at least 500 ms and the settling of the render that
    was started: the display shows the outcome of the renderer for that
    text under the selected theme (the svg, or the error message), the
    renders that were in flight before are still in flight, and nothing is
    left scheduled. *)
Theorem submission_reaches_display (s : State) (t : jsstring) (d : N) :
  reachable s -> diagramRef_current s = true ->
  t <> code s -> whitespace_only t = false -> (500 <= d)%N ->
  shows (run [SetCode t; Wait d; RenderSettled (idCounter s)] s)
        (mermaid_render (diagram_id (idCounter s)) t (mermaidTheme s)) /\
  inflight (run [SetCode t; Wait d; RenderSettled (idCounter s)] s) = inflight s /\
  code (run [SetCode t; Wait d; RenderSettled (idCounter s)] s) = t /\
  timer (run [SetCode t; Wait d; RenderSettled (idCounter s)] s) = None.
Proof.
  intros Hr Hdiv Hch Hw Hd.
  destruct (reachable_invariants s Hr) as [_ Hcc].
  destruct (reachable_ids s Hr) as [Hlt _].
  assert (Hm : mounted s = true).
  { unfold diagramRef_current in Hdiv. apply andb_true_iff in Hdiv. tauto. }
  change (run [SetCode t; Wait d; RenderSettled (idCounter s)] s)
    with (settle (idCounter s)
            (step (Wait d) (step (event_of (NewText t)) s))).
  rewrite (step_submission (NewText t) s Hch).
  set (s1 := arm (submitted (NewText t) s)).
  rewrite (wait_past_deadline s1
             (mkTimer (now s + 500) (mkClosure t (mounted s))) d eq_refl)
    by (simpl; lia).
  unfold renderDiagram.
  change (diagramRef_current (set_timer None (set_now (now s1 + d) s1)))
    with (diagramRef_current s).
  rewrite Hdiv, blank_iff_trim_empty. simpl callback. simpl cl_code.
  simpl cl_mounted. rewrite Hw, Hm. simpl negb. simpl orb. cbv iota.
  set (call := mkCall (idCounter s) t (mermaidTheme s)).
  set (s2 := set_inflight _ _).
  assert (Hin : inflight s2 = inflight s ++ [call]).
  { subst s2 call. simpl. rewrite (Hcc Hm). reflexivity. }
  assert (Htake : take_call (idCounter s) (inflight s2) = Some (call, inflight s)).
  { rewrite Hin. apply take_call_fresh; [exact Hlt | reflexivity]. }
  assert (Hdiv2 : diagramRef_current s2 = true).
  { subst s2. unfold diagramRef_current. simpl. rewrite Hm. reflexivity. }
  destruct (settle_applies s2 (idCounter s) call (inflight s) Htake Hdiv2)
    as [Hshow Hrest].
  split; [exact Hshow|]. split; [exact Hrest|].
  pose proof (settle_frame (idCounter s) s2) as (Ec & _ & _ & _ & Et & _).
  split; [rewrite Ec | rewrite Et]; reflexivity.
Qed.


(* ------------------------------------------------------------------ *)
(** *** The splitter over a whole session *)

Lemma step_width_other (e : Event) (s : State) :
  (forall x r, e <> MouseMove x r) -> editorWidth (step e s) = editorWidth s.
Proof.
  intros He. destruct e; try (exfalso; eapply He; reflexivity); quiet_event.
Qed.

Lemma step_move_idle (x : Q) (r : DOMRect) (s : State) :
  isResizing s = false -> step (MouseMove x r) s = s.
Proof. intros H. simpl. rewrite H. reflexivity. Qed.

(** X9. The editor width changes only through pointer moves made while
    the splitter is held: no other event changes it, a pointer move
    outside a drag changes nothing at all, and once the button is released
    no sequence of pointer moves has any effect. *)
Theorem width_changes_only_while_dragging (s : State) :
  (forall e, (forall x r, e <> MouseMove x r) ->
             editorWidth (step e s) = editorWidth s) /\
  (isResizing s = false -> forall x r, step (MouseMove x r) s = s) /\
  isResizing (step MouseDown s) = true /\
  (forall moves,
     run (MouseUp :: move_events moves) s = step MouseUp s /\
     editorWidth (run (MouseUp :: move_events moves) s) = editorWidth s).
Proof.
  split; [intros e; apply step_width_other|].
  split; [intros H x r; apply step_move_idle, H|].
  split; [reflexivity|].
  intros moves.
  assert (Hup : isResizing (step MouseUp s) = false).
  { simpl. destruct (isResizing s) eqn:H; [reflexivity | exact H]. }
  assert (Hrun : run (MouseUp :: move_events moves) s = step MouseUp s).
  { change (run (MouseUp :: move_events moves) s)
      with (run (move_events moves) (step MouseUp s)).
    generalize dependent (step MouseUp s). intros s' Hs'.
    induction moves as [|[x r] moves IH]; [reflexivity|].
    change (run (move_events ((x, r) :: moves)) s')
      with (run (move_events moves) (step (MouseMove x r) s')).
    rewrite step_move_idle by exact Hs'. exact IH. }
  split; [exact Hrun|].
  rewrite Hrun. apply step_width_other. discriminate.
Qed.

Lemma handleMouseMove_in_range (x : Q) (r : DOMRect) (s : State) :
  ~ (width r == 0 /\ x == left r)%Q ->
  width_in_range s -> width_in_range (handleMouseMove x r s).
Proof.
  intros Hdef Hs. unfold handleMouseMove.
  destruct (negb (isResizing s) || negb (mounted s)); [exact Hs|].
  unfold width_in_range. cbn [editorWidth set_editorWidth].
  unfold js_div, js_sub.
  destruct (Qeq_bool (width r) 0) eqn:Hw.
  - apply Qeq_bool_iff in Hw.
    destruct (Qcompare_spec (x - left r) 0) as [He | Hl | Hg];
      cbn [inf_of_sign js_mul Math_max Math_min].
    + exfalso. apply Hdef. split; [exact Hw|].
      setoid_replace x with (x - left r + left r)%Q by ring.
      rewrite He. ring.
    + exists 20%Q. repeat split; discriminate.
    + exists 80%Q. repeat split; discriminate.
  - cbn [js_mul Math_max Math_min].
    set (p := ((x - left r) / width r * 100)%Q).
    destruct (Qle_bool p 20) eqn:H20; cbn [Math_min].
    + exists 20%Q. repeat split; discriminate.
    + assert (L20 : (20 <= p)%Q).
      { apply Qlt_le_weak, Qnot_le_lt. intros H.
        apply Qle_bool_iff in H. congruence. }
      destruct (Qle_bool p 80) eqn:H80.
      * exists p. apply Qle_bool_iff in H80. auto.
      * exists 80%Q. repeat split; discriminate.
Qed.

Lemma step_width_in_range (e : Event) (s : State) :
  defined_move e -> width_in_range s -> width_in_range (step e s).
Proof.
  intros Hd Hs. destruct e;
    try (unfold width_in_range;
         rewrite step_width_other by discriminate; exact Hs).
  simpl. destruct (isResizing s); [|exact Hs].
  apply handleMouseMove_in_range; assumption.
Qed.

(** X10. Over a whole session in which no pointer move divides zero by
    zero (a container of width zero with the pointer on its left edge),
    the editor always takes between 20 and 80 percent of the width, and so
    does the preview, which takes the rest. *)
Theorem split_stays_in_range
    (th : UiTheme) (sys : SystemTheme) (stored : option jsstring)
    (es : list Event) :
  Forall defined_move es ->
  exists w,
    editorWidth (run es (initial th sys stored)) = Fin w /\
    (20 <= w <= 80)%Q /\ (20 <= 100 - w <= 80)%Q.
Proof.
  intros Hes.
  assert (H : width_in_range (run es (initial th sys stored))).
  { assert (H0 : width_in_range (initial th sys stored)).
    { exists 50%Q. repeat split; discriminate. }
    revert H0. generalize (initial th sys stored).
    induction Hes as [|e es He _ IH]; intros s Hs; [exact Hs|].
    change (run (e :: es) s) with (run es (step e s)).
    apply IH, step_width_in_range; assumption. }
  destruct H as (w & Hw & Hlo & Hhi).
  exists w. split; [exact Hw|]. split; [split; assumption|].
  split.
  - apply (Qplus_le_r _ _ w). ring_simplify.
    setoid_replace (w + 20)%Q with (20 + w)%Q by ring.
    apply (Qplus_le_r _ _ (-20)%Q). ring_simplify. exact Hhi.
  - apply (Qplus_le_r _ _ w). ring_simplify.
    setoid_replace (w + 80)%Q with (80 + w)%Q by ring.
    apply (Qplus_le_r _ _ (-80)%Q). ring_simplify. exact Hlo.
Qed.

(* ------------------------------------------------------------------ *)
(** *** The saved list over a whole session *)

Lemma filter_index_general (l : list jsval) (i k : nat) :
  filter_index i (i + k) l = firstn k l ++ skipn (S k) l.
Proof.
  revert i k. induction l as [|x r IH]; intros i k.
  - destruct k; reflexivity.
  - cbn [filter_index]. destruct k as [|k].
    + rewrite Nat.add_0_r, Nat.eqb_refl.
      rewrite filter_index_past by lia. reflexivity.
    + destruct (Nat.eqb_spec i (i + S k)); [lia|].
      replace (i + S k)%nat with (S i + k)%nat by lia.
      rewrite IH. reflexivity.
Qed.

Lemma delete_at (index : nat) (items : list jsval) (s : State) :
  savedDiagrams s = JArr items ->
  step (DeleteDiagram index true) s =
  set_localStorage
    (Some (JSON_stringify (JArr (firstn index items ++ skipn (S index) items))))
    (set_savedDiagrams (JArr (firstn index items ++ skipn (S index) items)) s).
Proof.
  intros Hs.
  change (step (DeleteDiagram index true) s) with (deleteDiagram index true s).
  unfold deleteDiagram. cbn [negb]. rewrite Hs.
  pose proof (filter_index_general items 0 index) as E. cbn [Nat.add] in E.
  rewrite E. reflexivity.
Qed.

Lemma save_at (nm : jsstring) (items : list jsval) (s : State) :
  savedDiagrams s = JArr items -> nm <> [] ->
  step (SaveDiagram (Some nm)) s =
  set_localStorage
    (Some (JSON_stringify (JArr (items ++ [diagram nm (code s)]))))
    (set_savedDiagrams (JArr (items ++ [diagram nm (code s)])) s).
Proof.
  intros Hs Hnm.
  change (step (SaveDiagram (Some nm)) s) with (saveDiagram (Some nm) s).
  unfold saveDiagram. destruct nm as [|c nm]; [congruence|].
  cbn [is_empty]. rewrite Hs. reflexivity.
Qed.


Lemma step_keeps_saved (e : Event) (s : State) :
  mounted s = true ->
  (forall a, e <> SaveDiagram a) -> (forall i c, e <> DeleteDiagram i c) ->
  savedDiagrams (step e s) = savedDiagrams s /\
  localStorage (step e s) = localStorage s.
Proof.
  intros Hm Hs Hd.
  destruct e;
    try (exfalso; eapply Hs; reflexivity);
    try (exfalso; eapply Hd; reflexivity);
    simpl; rewrite ?Hm;
    rewrite ?commit_saved by reflexivity;
    autorewrite with through_commit; frame.
Qed.

Lemma step_keeps_mounted (e : Event) (s : State) :
  mounted s = true -> mounted (step e s) = true.
Proof.
  intros Hm. destruct e; simpl; rewrite ?Hm;
    autorewrite with through_commit; frame.
Qed.

Lemma step_in_sync (e : Event) (s : State) :
  mounted s = true -> in_sync s -> in_sync (step e s).
Proof.
  intros Hm (l & Hs & Hstore).
  assert (Hkind : (exists a, e = SaveDiagram a) \/ (exists i c, e = DeleteDiagram i c)
                  \/ ((forall a, e <> SaveDiagram a) /\ (forall i c, e <> DeleteDiagram i c))).
  { destruct e; eauto; right; right; split; intros; discriminate. }
  destruct Hkind as [(a & ->) | [(i & c & ->) | [Hns Hnd]]].
  - destruct a as [[|ch nm]|]; try (exists l; auto; fail).
    rewrite (save_at (ch :: nm) _ s Hs) by discriminate.
    exists (l ++ [mkSaved (ch :: nm) (code s)]).
    cbn [savedDiagrams localStorage set_localStorage set_savedDiagrams].
    unfold diagrams_js. rewrite List.map_app. auto.
  - destruct c; [|exists l; auto].
    rewrite (delete_at i _ s Hs).
    exists (remove_at i l).
    cbn [savedDiagrams localStorage set_localStorage set_savedDiagrams].
    unfold diagrams_js, remove_at.
    rewrite List.map_app, List.firstn_map, List.skipn_map. auto.
  - destruct (step_keeps_saved e s Hm Hns Hnd) as [E1 E2].
    exists l. rewrite E1, E2. auto.
Qed.

Lemma run_in_sync (es : list Event) (s : State) :
  mounted s = true -> in_sync s -> in_sync (run es s).
Proof.
  revert s. induction es as [|e es IH]; intros s Hm Hs; [exact Hs|].
  change (run (e :: es) s) with (run es (step e s)).
  apply IH; [apply step_keeps_mounted, Hm | apply step_in_sync; assumption].
Qed.

Lemma in_sync_reloads (s : State) (th : UiTheme) (sys : SystemTheme) :
  in_sync s ->
  savedDiagrams (step Mount (initial th sys (localStorage s))) = savedDiagrams s.
Proof.
  intros (l & Hs & Hstore).
  destruct (mount_loads (initial th sys (localStorage s))) as (_ & _ & H);
    [reflexivity|].
  rewrite H, Hs. cbn [localStorage initial savedDiagrams].
  destruct Hstore as [-> | [-> ->]]; [|reflexivity].
  unfold diagrams_js at 1. rewrite stringify_not_empty.
  fold (diagrams_js l). rewrite parse_stringify_diagrams. reflexivity.
Qed.


(* ------------------------------------------------------------------ *)
(** *** Loading a saved diagram *)

Lemma nth_error_diagrams (l : list SavedDiagram) (idx : nat) (d : SavedDiagram) :
  nth_error l idx = Some d ->
  nth_error (List.map (fun d => diagram (name d) (text d)) l) idx
  = Some (diagram (name d) (text d)).
Proof. intros H. rewrite List.nth_error_map, H. reflexivity. Qed.

(** X13. A click on a saved entry puts the text saved under it back in
    the editor, whatever was typed since, and schedules its render when it
    differs from the text in the editor; entries are told apart by
    position, not by name, and there is nothing to click beyond the end of
    the list. In particular the text at the time of a save comes back by a
    click on the entry the save added. *)
Theorem saved_entry_loads_its_text
    (s : State) (l : list SavedDiagram) (idx : nat) :
  savedDiagrams s = diagrams_js l ->
  (forall d, nth_error l idx = Some d ->
     saved_entry_click idx s = Some (step (SetCode (text d)) s) /\
     code (step (SetCode (text d)) s) = text d /\
     (text d <> code s ->
      timer (step (SetCode (text d)) s)
      = Some (mkTimer (now s + 500) (mkClosure (text d) (mounted s))))) /\
  ((List.length l <= idx)%nat -> saved_entry_click idx s = None) /\
  (forall nm typed : jsstring, nm <> [] ->
     exists s',
       saved_entry_click (List.length l)
         (run [SaveDiagram (Some nm); SetCode typed] s) = Some s' /\
       code s' = code s).
Proof.
  intros Hs. split; [|split].
  - intros d Hd. unfold saved_entry_click. rewrite Hs. unfold diagrams_js.
    rewrite (nth_error_diagrams l idx d Hd).
    split; [reflexivity|]. split.
    + simpl. autorewrite with through_commit. reflexivity.
    + intros Hch.
      change (step (SetCode (text d)) s) with (step (event_of (NewText (text d))) s).
      rewrite (step_submission (NewText (text d)) s Hch). reflexivity.
  - intros Hi. unfold saved_entry_click. rewrite Hs. unfold diagrams_js.
    assert (H : nth_error (List.map (fun d => diagram (name d) (text d)) l) idx = None).
    { apply nth_error_None. rewrite List.length_map. exact Hi. }
    rewrite H. reflexivity.
  - intros nm typed Hnm.
    change (run [SaveDiagram (Some nm); SetCode typed] s)
      with (step (SetCode typed) (step (SaveDiagram (Some nm)) s)).
    rewrite (save_at nm _ s Hs Hnm).
    set (s1 := set_localStorage _ _).
    assert (Hsaved : savedDiagrams (step (SetCode typed) s1)
                     = diagrams_js (l ++ [mkSaved nm (code s)])).
    { simpl. rewrite commit_saved by reflexivity.
      subst s1. unfold diagrams_js. rewrite List.map_app. reflexivity. }
    unfold saved_entry_click. rewrite Hsaved. unfold diagrams_js.
    rewrite (nth_error_diagrams _ _ (mkSaved nm (code s)))
      by (rewrite nth_error_app2, Nat.sub_diag by lia; reflexivity).
    eexists. split; [reflexivity|].
    unfold loadDiagram. autorewrite with through_commit. reflexivity.
Qed.

(* ------------------------------------------------------------------ *)
(** *** The page theme and the diagram theme *)

Lemma commit_page_theme (s s' : State) :
  theme (commit s s') = theme s' /\ systemTheme (commit s s') = systemTheme s'.
Proof. unfold commit. frame. Qed.

Lemma isDark_commit (s s' : State) : isDark (commit s s') = isDark s'.
Proof.
  unfold isDark. destruct (commit_page_theme s s') as [-> ->]. reflexivity.
Qed.

(** X14. A change of the page theme, once the page is mounted: a diagram
    theme of forest, neutral or base is never touched; when the page turns
    dark a default diagram theme becomes dark, and when the page turns
    light a dark diagram theme becomes default, the renderer is
    reconfigured and the render is scheduled anew; and when the page does
    not change between dark and light, nothing but the page theme
    changes. *)
Theorem page_theme_follows_choice (e : Event) (s : State) :
  page_theme_event e = true -> mounted s = true ->
  (mermaidTheme s = ThForest \/ mermaidTheme s = ThNeutral \/ mermaidTheme s = ThBase ->
   mermaidTheme (step e s) = mermaidTheme s /\ timer (step e s) = timer s) /\
  (isDark s = false -> isDark (step e s) = true -> mermaidTheme s = ThDefault ->
   mermaidTheme (step e s) = ThDark /\ mermaidConfig (step e s) = ThDark /\
   timer (step e s) = Some (mkTimer (now s + 500) (mkClosure (code s) true))) /\
  (isDark s = true -> isDark (step e s) = false -> mermaidTheme s = ThDark ->
   mermaidTheme (step e s) = ThDefault /\ mermaidConfig (step e s) = ThDefault /\
   timer (step e s) = Some (mkTimer (now s + 500) (mkClosure (code s) true))) /\
  (isDark (step e s) = isDark s ->
   mermaidTheme (step e s) = mermaidTheme s /\
   mermaidConfig (step e s) = mermaidConfig s /\
   timer (step e s) = timer s).
Proof.
  intros He Hm.
  assert (Hstep : exists s', step e s = commit s s' /\ mermaidTheme s' = mermaidTheme s
                             /\ mounted s' = true /\ timer s' = timer s
                             /\ mermaidConfig s' = mermaidConfig s
                             /\ code s' = code s /\ now s' = now s).
  { destruct e; try discriminate He; eexists; split; try reflexivity; simpl; auto 10. }
  destruct Hstep as (s' & -> & Hth & Hm' & Ht & Hc & Hcode & Hnow).
  rewrite isDark_commit.
  unfold commit. rewrite Hm, Hm'. cbn [Bool.eqb negb orb].
  rewrite !orb_false_r.
  destruct (Bool.eqb (isDark s) (isDark s')) eqn:Hd; cbn [negb].
  - (* the page stays dark, or stays light *)
    apply Bool.eqb_prop in Hd.
    rewrite Hth, theme_eqb_refl, <- Hcode, str_eqb_refl. cbn [negb orb].
    repeat split; intros; try congruence.
  - apply Bool.eqb_false_iff in Hd.
    unfold sync_theme. rewrite Hm'.
    destruct (isDark s) eqn:Hs, (isDark s') eqn:Hs'; try congruence;
      cbn [andb negb]; rewrite Hth;
      destruct (mermaidTheme s) eqn:Hmt; cbn [theme_eqb];
      cbn [mermaidTheme set_mermaidTheme code theme_eqb negb orb];
      rewrite ?Hth, ?Hmt; cbn [theme_eqb negb orb];
      rewrite <- ?Hcode, ?str_eqb_refl; cbn [negb orb];
      unfold mermaid_initialize, arm;
      cbn [mounted set_mermaidTheme set_mermaidConfig mermaidTheme mermaidConfig
           timer set_timer now code];
      rewrite ?Hm'; cbn [mounted set_mermaidTheme set_mermaidConfig mermaidTheme
                         mermaidConfig timer set_timer now code];
      rewrite ?Hth, ?Hmt, ?Hcode, ?Hnow, ?Hm';
      repeat split; intros; try congruence;
      repeat match goal with
             | H : _ \/ _ |- _ => destruct H
             end; try congruence; try discriminate.
Qed.

(* ------------------------------------------------------------------ *)
(** *** Fullscreen requests and notifications together *)

(** X15. On a mounted page whose flag agrees with the host: a granted
    request followed by the host's notification flips the flag, two such
    rounds restore it; leaving fullscreen from the host (the Esc key)
    followed by the notification clears the flag; a denied request to
    enter changes nothing at all; and after every notification the flag
    agrees with the host again. Before the page is mounted a request does
    nothing. *)
Theorem fullscreen_rounds (s : State) :
  mounted s = true -> isFullscreen s = fullscreenElement s ->
  isFullscreen (run [ToggleFullscreen true; FullscreenChange] s)
  = negb (isFullscreen s) /\
  isFullscreen (run [ToggleFullscreen true; FullscreenChange;
                     ToggleFullscreen true; FullscreenChange] s)
  = isFullscreen s /\
  isFullscreen (run [HostLeavesFullscreen; FullscreenChange] s) = false /\
  (isFullscreen s = false -> step (ToggleFullscreen false) s = s) /\
  (forall e, isFullscreen (run [e; FullscreenChange] s)
             = fullscreenElement (run [e; FullscreenChange] s)) /\
  (forall s0 granted, mounted s0 = false -> step (ToggleFullscreen granted) s0 = s0).
Proof.
  intros Hm Hfs.
  repeat split.
  - simpl. unfold toggleFullscreen. rewrite Hm. simpl.
    destruct (isFullscreen s); reflexivity.
  - simpl. unfold toggleFullscreen, handleFullscreenChange. rewrite Hm. simpl.
    destruct (isFullscreen s) eqn:Hf; simpl; rewrite Hm; simpl; reflexivity.
  - intros Hf. simpl. unfold toggleFullscreen. rewrite Hm, Hf. reflexivity.
  - intros s0 granted H0. simpl. unfold toggleFullscreen. rewrite H0. reflexivity.
Qed.

(* ------------------------------------------------------------------ *)
(** *** Opening the page *)

Lemma mount_pipeline (s : State) :
  mounted s = false ->
  code (step Mount s) = code s /\
  mounted (step Mount s) = true /\
  now (step Mount s) = now s /\
  error (step Mount s) = error s /\
  inflight (step Mount s) = inflight s /\
  idCounter (step Mount s) = idCounter s /\
  timer (step Mount s) = Some (mkTimer (now s + 500) (mkClosure (code s) true)) /\
  mermaidTheme (step Mount s)
  = (if isDark s && theme_eqb (mermaidTheme s) ThDefault then ThDark
     else if negb (isDark s) && theme_eqb (mermaidTheme s) ThDark then ThDefault
     else mermaidTheme s) /\
  mermaidConfig (step Mount s) = mermaidTheme (step Mount s).
Proof.
  intros Hm. simpl. rewrite Hm. unfold commit. simpl. rewrite Hm. simpl.
  rewrite !orb_true_r. cbv iota.
  unfold load_saved, mermaid_initialize, arm, sync_theme, isDark. simpl.
  split_tests; simpl in *; repeat split; congruence.
Qed.


(* ------------------------------------------------------------------ *)
(** *** Zoom steps together *)

(** X17. Zoom steps compose as on a ladder: below the upper bound a step
    in followed by a step out gives the level back, and above the lower
    bound a step out followed by a step in does; at a bound the pair moves
    one step away from it; and 15 steps in one direction always reach the
    bound of that direction. *)
Theorem zoom_steps_compose (s : State) :
  reachable s ->
  ((zoom s < 200)%Z -> zoom (run [ZoomIn; ZoomOut] s) = zoom s) /\
  ((50 < zoom s)%Z -> zoom (run [ZoomOut; ZoomIn] s) = zoom s) /\
  (zoom s = 200%Z -> zoom (run [ZoomIn; ZoomOut] s) = 190%Z) /\
  (zoom s = 50%Z -> zoom (run [ZoomOut; ZoomIn] s) = 60%Z) /\
  zoom (run (repeat ZoomIn 15) s) = 200%Z /\
  zoom (run (repeat ZoomOut 15) s) = 50%Z.
Proof.
  intros Hr.
  assert (Hg : zoom_on_grid s).
  { induction Hr as [th sys stored | e s _ IH].
    - exists 5%Z. split; [lia | reflexivity].
    - apply step_zoom_on_grid, IH. }
  destruct Hg as (k & Hk & Hz).
  change (zoom (run [ZoomIn; ZoomOut] s))
    with (Z.max (Z.min (zoom s + 10) 200 - 10) 50).
  change (zoom (run [ZoomOut; ZoomIn] s))
    with (Z.min (Z.max (zoom s - 10) 50 + 10) 200).
  assert (Hin : forall n s', (200 - 10 * Z.of_nat n <= zoom s' <= 200)%Z ->
                             zoom (run (repeat ZoomIn n) s') = 200%Z).
  { induction n as [|n IH]; intros s' H'.
    - simpl in *. lia.
    - change (run (repeat ZoomIn (S n)) s') with (run (repeat ZoomIn n) (step ZoomIn s')).
      apply IH. change (zoom (step ZoomIn s')) with (Z.min (zoom s' + 10) 200). lia. }
  assert (Hout : forall n s', (50 <= zoom s' <= 50 + 10 * Z.of_nat n)%Z ->
                              zoom (run (repeat ZoomOut n) s') = 50%Z).
  { induction n as [|n IH]; intros s' H'.
    - simpl in *. lia.
    - change (run (repeat ZoomOut (S n)) s') with (run (repeat ZoomOut n) (step ZoomOut s')).
      apply IH. change (zoom (step ZoomOut s')) with (Z.max (zoom s' - 10) 50). lia. }
  repeat split; try lia.
  - apply Hin. lia.
  - apply Hout. lia.
Qed.

(* ------------------------------------------------------------------ *)
(** *** Exports *)

(** X18. The two export buttons: while an error is displayed, or before
    the page is mounted, they do nothing at all, no file and no notice;
    otherwise each gives either one download under its fixed file name,
    with the data the exporter returned for the diagram div on the
    background of the page theme, or one failure notice, never both and
    never a file after a failure. The background is the dark one exactly
    when the page is dark. *)
Theorem export_gives_file_or_notice
    (toPng toSvg : DiagramNode -> ExportOptions -> result jsstring) (s : State) :
  (is_empty (error s) = false \/ mounted s = false ->
   exportToPNG toPng s = [] /\ exportToSVG toSvg s = []) /\
  (diagramRef_current s = true ->
   (exists url,
      toPng (mkNode (diagramHTML s) (zoom s))
            (mkOptions (Some 1%Z) (Some 2%Z) (export_background s)) = Ok url /\
      exportToPNG toPng s = [Download (js "mermaid-diagram.png") url]) \/
   ((forall n url, ~ In (Download n url) (exportToPNG toPng s)) /\
    In (Alert (js "Export failed. Please try again.")) (exportToPNG toPng s))) /\
  (diagramRef_current s = true ->
   (exists url,
      toSvg (mkNode (diagramHTML s) (zoom s))
            (mkOptions None None (export_background s)) = Ok url /\
      exportToSVG toSvg s = [Download (js "mermaid-diagram.svg") url]) \/
   ((forall n url, ~ In (Download n url) (exportToSVG toSvg s)) /\
    In (Alert (js "Export failed. Please try again.")) (exportToSVG toSvg s))) /\
  (export_background s = js "#1e293b" <-> isDark s = true) /\
  (theme s = System ->
   (export_background s = js "#1e293b" <-> systemTheme s = SysDark)).
Proof.
  split; [|split; [|split; [|split]]].
  - intros H.
    assert (Hd : diagramRef_current s = false).
    { unfold diagramRef_current. destruct H as [-> | ->];
        [apply andb_false_r | reflexivity]. }
    unfold exportToPNG, exportToSVG, diagram_node. rewrite Hd. auto.
  - intros Hd. unfold exportToPNG, diagram_node. rewrite Hd.
    destruct (toPng _ _) as [url | e]; [left; eauto|].
    right. split.
    + intros n url [H | [H | []]]; discriminate.
    + right. left. reflexivity.
  - intros Hd. unfold exportToSVG, diagram_node. rewrite Hd.
    destruct (toSvg _ _) as [url | e]; [left; eauto|].
    right. split.
    + intros n url [H | [H | []]]; discriminate.
    + right. left. reflexivity.
  - unfold export_background. destruct (isDark s); split; intros H;
      try reflexivity; discriminate.
  - intros Hsys. unfold export_background, isDark. rewrite Hsys.
    destruct (systemTheme s); split; intros H; try reflexivity; discriminate.
Qed.

(* ------------------------------------------------------------------ *)
(** *** Labels and counters *)

Lemma trimEnd_keeps (y : jsstring) :
  (rev y = [] \/ exists d t, rev y = d :: t /\ is_js_whitespace d = false) ->
  trimEnd y = y.
Proof.
  intros H. unfold trimEnd.
  assert (Hz : trimStart (rev y) = rev y).
  { destruct H as [-> | (d & t & -> & Hd)]; simpl; [reflexivity|].
    rewrite Hd. reflexivity. }
  rewrite Hz. apply rev_involutive.
Qed.

Lemma space_capitals_end (r : jsstring) :
  forallb (fun c => negb (is_js_whitespace c)) r = true ->
  rev (space_capitals r) = [] \/
  exists d t, rev (space_capitals r) = d :: t /\ is_js_whitespace d = false.
Proof.
  induction r as [|c r IH]; simpl; [auto|].
  intros H. apply andb_true_iff in H as [Hc Hr].
  apply negb_true_iff in Hc. right.
  assert (Hend : exists d t, rev (c :: space_capitals r) = d :: t
                             /\ is_js_whitespace d = false).
  { simpl. destruct (IH Hr) as [E | (d & t & E & Hd)]; rewrite E.
    - exists c, []. auto.
    - exists d, (t ++ [c]). auto. }
  destruct (is_capital c); [|exact Hend].
  destruct Hend as (d & t & E & Hd).
  exists d, (t ++ [32%N]). split; [|exact Hd].
  change (rev (32%N :: c :: space_capitals r))
    with (rev (c :: space_capitals r) ++ [32%N]).
  rewrite E. reflexivity.
Qed.

Lemma filter_space_capitals (r : jsstring) :
  forallb (fun c => negb (is_js_whitespace c)) r = true ->
  filter (fun c => negb (c =? 32)%N) (space_capitals r) = r.
Proof.
  induction r as [|c r IH]; simpl; [reflexivity|].
  intros H. apply andb_true_iff in H as [Hc Hr].
  assert (H32 : (c =? 32)%N = false).
  { destruct (N.eqb_spec c 32) as [-> |]; [discriminate Hc | reflexivity]. }
  destruct (is_capital c); simpl; rewrite H32; simpl; rewrite (IH Hr); reflexivity.
Qed.

(** X19. The label of a template button, for a key without white space:
    it is the key with a blank before every capital letter except a
    leading one; deleting the blanks gives the key back, and a key without
    capitals is its own label. *)
Theorem template_label_of_key (key : jsstring) :
  forallb (fun c => negb (is_js_whitespace c)) key = true ->
  template_label key
  = match key with
    | [] => []
    | c :: r => c :: space_capitals r
    end /\
  filter (fun c => negb (c =? 32)%N) (template_label key) = key /\
  (forallb (fun c => negb (is_capital c)) key = true -> template_label key = key).
Proof.
  intros Hkey.
  assert (Hlabel : template_label key
                   = match key with [] => [] | c :: r => c :: space_capitals r end).
  { destruct key as [|c r]; [reflexivity|].
    simpl in Hkey. apply andb_true_iff in Hkey as [Hc Hr].
    apply negb_true_iff in Hc.
    assert (Hstart : trimStart (space_capitals (c :: r)) = c :: space_capitals r).
    { simpl. destruct (is_capital c); simpl; rewrite Hc; reflexivity. }
    unfold template_label, trim. rewrite Hstart.
    apply trimEnd_keeps. right. simpl.
    destruct (space_capitals_end r Hr) as [E | (d & t & E & Hd)]; rewrite E.
    - exists c, []. auto.
    - exists d, (t ++ [c]). auto. }
  split; [exact Hlabel|]. split.
  - rewrite Hlabel. destruct key as [|c r]; [reflexivity|].
    pose proof (filter_space_capitals (c :: r) Hkey) as H.
    simpl in H. destruct (is_capital c); simpl in *.
    + destruct (c =? 32)%N; simpl in *; exact H.
    + exact H.
  - intros Hlow. rewrite Hlabel. destruct key as [|c r]; [reflexivity|].
    f_equal. simpl in Hlow. apply andb_true_iff in Hlow as [_ Hlow].
    clear -Hlow. induction r as [|x r IH]; simpl in *; [reflexivity|].
    apply andb_true_iff in Hlow as [Hx Hr]. apply negb_true_iff in Hx.
    rewrite Hx, (IH Hr). reflexivity.
Qed.

Lemma split_on_not_empty (sep : N) (s : jsstring) : split_on sep s <> [].
Proof.
  induction s as [|c r IH]; simpl; [discriminate|].
  destruct (c =? sep)%N; [discriminate|].
  destruct (split_on sep r); [contradiction | discriminate].
Qed.

Lemma line_count_formula (t : jsstring) :
  line_count t = S (count_occ N.eq_dec t 10%N).
Proof.
  unfold line_count. induction t as [|c r IH]; [reflexivity|].
  cbn [split_on count_occ].
  destruct (N.eqb_spec c 10) as [-> | Hc].
  - destruct (N.eq_dec 10 10); [|contradiction]. simpl. rewrite IH. reflexivity.
  - destruct (N.eq_dec c 10); [contradiction|].
    pose proof (split_on_not_empty 10 r) as Hne.
    destruct (split_on 10 r); [contradiction|]. exact IH.
Qed.

(** X20. The footer: the number of lines shown is one more than the
    number of line feeds in the text, so it is 1 for the empty text and at
    most one more than the number of characters shown; the lines of two
    texts joined by a line feed add up; and the pieces the count is taken
    of, joined by line feeds, are the text. *)
Theorem footer_counts (t : jsstring) :
  line_count t = S (count_occ N.eq_dec t 10%N) /\
  line_count [] = 1%nat /\
  (1 <= line_count t <= S (character_count t))%nat /\
  (forall a b, line_count (a ++ 10%N :: b) = (line_count a + line_count b)%nat) /\
  join_lines (split_on 10 t) = t.
Proof.
  split; [apply line_count_formula|]. split; [reflexivity|]. split; [|split].
  - rewrite line_count_formula. unfold character_count.
    pose proof (count_occ_bound N.eq_dec 10%N t). lia.
  - intros a b. rewrite !line_count_formula, count_occ_app. simpl.
    destruct (N.eq_dec 10 10); [lia | contradiction].
  - induction t as [|c r IH]; [reflexivity|].
    cbn [split_on]. destruct (N.eqb_spec c 10) as [-> | Hc].
    + pose proof (split_on_not_empty 10 r) as Hne.
      destruct (split_on 10 r) as [|p ps]; [contradiction|].
      change (join_lines ([] :: p :: ps)) with ([] ++ [10%N] ++ join_lines (p :: ps)).
      rewrite IH. reflexivity.
    + pose proof (split_on_not_empty 10 r) as Hne.
      destruct (split_on 10 r) as [|p ps]; [contradiction|].
      rewrite <- IH. destruct ps; reflexivity.
Qed.

End Properties.

(* ================================================================== *)
(** ** The properties on sample runs *)
(* ================================================================== *)

Lemma opened_reachable : reachable sample_render sample_null_message opened.
Proof. apply reach_step, reach_initial. Defined.




(** Why the amended statement asks that the older render produced an
    svg: when the older render is rejected first, its error takes the
    diagram div out of the page, and the svg of the newer render, which
    settles afterwards, cannot be assigned; the display ends with the
    message of that TypeError although the last text renders. *)
Example rejected_older_render_hides_newer_result :
  sample_render (diagram_id 1) valid_text ThDefault
  = Rendered (js "<svg>" ++ valid_text ++ js "</svg>") /\
  error (run sample_render sample_null_message
           [RenderSettled 0; RenderSettled 1] racing) = sample_null_message /\
  diagramHTML (run sample_render sample_null_message
                 [RenderSettled 0; RenderSettled 1] racing) = [].
Proof. vm_compute. repeat split. Qed.

(** C3 on the scenario of the specification: the incomplete text was
    rendered and rejected; the complete text is typed again and the timer
    fires, and long after that the error is still displayed, although the
    renderer accepts the complete text. *)
Lemma recovery_witness :
  is_empty (error failed) = false /\
  sample_render (diagram_id 1) valid_text ThDefault
  = Rendered (js "<svg>" ++ valid_text ++ js "</svg>") /\
  is_empty (error (run sample_render sample_null_message
                     [SetCode valid_text; Wait 500; Wait 60000] failed)) = false /\
  inflight (run sample_render sample_null_message
              [SetCode valid_text; Wait 500] failed) = [].
Proof.
  destruct (displayed_error_is_never_replaced sample_render sample_null_message
              failed [SetCode valid_text; Wait 500; Wait 60000] eq_refl)
    as [Hkept Hnone].
  destruct (Hnone valid_text 500%N) as (_ & Hin & _).
  split; [reflexivity|]. split; [reflexivity|]. split; [exact Hkept | exact Hin].
Defined.

(** C4 on a sample: with two blanks in the editor, the timer fires and
    nothing is rendered. *)
Lemma blank_text_witness :
  whitespace_only (code blank_session) = true /\
  inflight (step sample_render sample_null_message (Wait 500) blank_session) = [] /\
  idCounter (step sample_render sample_null_message (Wait 500) blank_session) = 0%N /\
  timer (step sample_render sample_null_message (Wait 500) blank_session) = None.
Proof.
  assert (Hreach : reachable sample_render sample_null_message blank_session)
    by (apply reach_step, opened_reachable).
  destruct (blank_text_fires_nothing sample_render sample_null_message
              blank_session 500 Hreach eq_refl)
    as (Hin & Hid & _ & _ & Hfire).
  split; [reflexivity|]. split; [exact Hin|]. split; [exact Hid|].
  rewrite (Hfire (mkTimer 500 (mkClosure (js "  ") true)) eq_refl);
    [reflexivity | intros H; discriminate H].
Defined.



(** C7 on a sample: from the initial 100 one step in gives 110 and one
    step out gives 90. *)
Lemma zoom_witness :
  zoom (step sample_render sample_null_message ZoomIn opened) = 110%Z /\
  zoom (step sample_render sample_null_message ZoomOut opened) = 90%Z.
Proof.
  assert (Hz : (50 <= zoom opened <= 200)%Z)
    by (split; intros H; discriminate H).
  destruct (zoom_steps_and_bounds sample_render sample_null_message opened Hz)
    as (_ & _ & _ & _ & Hin & Hout & _).
  split.
  - apply Hin. intros H; discriminate H.
  - apply Hout. intros H; discriminate H.
Defined.



(** C9 on a sample: a granted request reaches the host and leaves the
    flag alone; the notification then sets it. *)
Lemma fullscreen_witness :
  isFullscreen (step sample_render sample_null_message (ToggleFullscreen true) opened)
  = false /\
  fullscreenElement (step sample_render sample_null_message (ToggleFullscreen true) opened)
  = true /\
  isFullscreen (run sample_render sample_null_message
                  [ToggleFullscreen true; FullscreenChange] opened) = true.
Proof.
  assert (Hne : ToggleFullscreen true <> FullscreenChange)
    by (intros H; discriminate H).
  destruct (fullscreen_flag_follows_host sample_render sample_null_message
              (ToggleFullscreen true) opened Hne) as (Hkeep & _ & _ & _).
  split; [exact Hkeep|]. split; reflexivity.
Defined.

(* ================================================================== *)
(** ** The further properties on sample runs *)
(* ================================================================== *)

Lemma overlapping_reachable : reachable sample_render sample_null_message overlapping.
Proof. apply reachable_run, opened_reachable. Defined.

(** X1 on a sample: the two renders in flight have the ids 0 and 1. *)
Lemma render_ids_witness :
  List.map call_id (inflight overlapping) = [0%N; 1%N] /\
  NoDup (List.map (fun c => diagram_id (call_id c)) (inflight overlapping)).
Proof.
  destruct (render_ids_are_unique sample_render sample_null_message
              overlapping overlapping_reachable) as (_ & _ & Hids & _).
  split; [reflexivity | exact Hids].
Defined.


(** X3 on a sample: the page opens at 100. *)
Lemma zoom_grid_witness : (50 <= zoom opened <= 200)%Z.
Proof.
  destruct (zoom_stays_on_grid sample_render sample_null_message
              opened opened_reachable) as (_ & H & _).
  exact H.
Defined.

(** X4 on a sample: zooming while two renders are in flight leaves them
    in flight. *)
Lemma unrelated_events_witness :
  inflight (step sample_render sample_null_message ZoomIn overlapping)
  = inflight overlapping.
Proof.
  destruct (unrelated_events_leave_pipeline sample_render sample_null_message
              ZoomIn overlapping eq_refl) as (_ & _ & _ & _ & _ & H & _).
  exact H.
Defined.

(** X5 on a sample: just after a letter was typed the timer is due in
    500 ms, and 500 ms later nothing is scheduled. *)
Lemma timer_window_witness :
  timer typing = Some (mkTimer 500 (mkClosure (js "A") true)) /\
  timer (step sample_render sample_null_message (Wait 500) typing) = None.
Proof.
  assert (Hr : reachable sample_render sample_null_message typing)
    by (apply reach_step, opened_reachable).
  destruct (pending_timer_is_within_window sample_render sample_null_message
              typing 500 Hr) as [_ H].
  split; [reflexivity|]. apply H. intros E; discriminate E.
Defined.

(** X6 on a sample: the render that fires is of the letter typed. *)
Lemma fired_render_witness :
  inflight (step sample_render sample_null_message (Wait 500) typing)
  = [mkCall 0 (js "A") ThDefault].
Proof.
  assert (Hr : reachable sample_render sample_null_message typing)
    by (apply reach_step, opened_reachable).
  assert (Hd : (500 <= now typing + 500)%N) by (intros E; discriminate E).
  destruct (fired_render_is_of_current_text sample_render sample_null_message
              typing (mkTimer 500 (mkClosure (js "A") true)) 500 Hr eq_refl Hd)
    as (_ & _ & H).
  destruct (H eq_refl eq_refl) as (Hin & _).
  exact Hin.
Defined.

(** X7 on a sample: the complete text of the scenario is typed, rendered
    and displayed. *)
Lemma submission_witness :
  error (run sample_render sample_null_message
           [SetCode valid_text; Wait 500; RenderSettled 0] opened) = [] /\
  diagramHTML (run sample_render sample_null_message
                 [SetCode valid_text; Wait 500; RenderSettled 0] opened)
  = js "<svg>" ++ valid_text ++ js "</svg>".
Proof.
  assert (Hch : valid_text <> code opened) by (intros E; discriminate E).
  assert (Hd : (500 <= 500)%N) by (intros E; discriminate E).
  destruct (submission_reaches_display sample_render sample_null_message
              opened valid_text 500 opened_reachable eq_refl Hch eq_refl Hd)
    as (Hshow & _).
  exact Hshow.
Defined.


(** X10 on a sample: after the drag to 5 percent the editor takes 20
    percent. *)
Lemma split_range_witness :
  exists w,
    editorWidth (run sample_render sample_null_message sample_drag
                   (initial Light SysLight None)) = Fin w /\
    (20 <= w <= 80)%Q.
Proof.
  assert (Hmoves : Forall defined_move sample_drag).
  { repeat constructor. intros [H _]. discriminate H. }
  destruct (split_stays_in_range sample_render sample_null_message
              Light SysLight None sample_drag Hmoves) as (w & Hw & Hr & _).
  exists w. split; [exact Hw | exact Hr].
Defined.



(** X13 on a sample: the template is saved, the text is replaced, and a
    click on the saved entry brings the template back. *)
Lemma saved_entry_witness :
  exists s',
    saved_entry_click 0
      (run sample_render sample_null_message
         [SaveDiagram (Some (js "A")); SetCode (js "B")] opened) = Some s' /\
    code s' = templates_flowchart.
Proof.
  destruct (saved_entry_loads_its_text sample_render sample_null_message
              opened [] 0 eq_refl) as (_ & _ & H).
  assert (Hnm : js "A" <> []) by (intros E; discriminate E).
  exact (H (js "A") (js "B") Hnm).
Defined.

(** X14 on a sample: the page is switched to dark and the default diagram
    theme becomes dark. *)
Lemma page_theme_witness :
  mermaidTheme (step sample_render sample_null_message (SetTheme Dark) opened) = ThDark /\
  mermaidConfig (step sample_render sample_null_message (SetTheme Dark) opened) = ThDark.
Proof.
  destruct (page_theme_follows_choice sample_render sample_null_message
              (SetTheme Dark) opened eq_refl eq_refl) as (_ & H & _).
  destruct (H eq_refl eq_refl eq_refl) as (Ht & Hc & _).
  split; [exact Ht | exact Hc].
Defined.

(** X15 on a sample: fullscreen is entered and the notification sets the
    flag. *)
Lemma fullscreen_rounds_witness :
  isFullscreen (run sample_render sample_null_message
                  [ToggleFullscreen true; FullscreenChange] opened) = true.
Proof.
  destruct (fullscreen_rounds sample_render sample_null_message
              opened eq_refl eq_refl) as (H & _).
  exact H.
Defined.

(** X17 on a sample: from 100, a step in and a step out give 100. *)
Lemma zoom_compose_witness :
  zoom (run sample_render sample_null_message [ZoomIn; ZoomOut] opened) = 100%Z.
Proof.
  destruct (zoom_steps_compose sample_render sample_null_message
              opened opened_reachable) as (H & _).
  apply H. reflexivity.
Defined.

(** X19 on a sample: the key erDiagram is labelled er Diagram. *)
Lemma template_label_witness : template_label (js "erDiagram") = js "er Diagram".
Proof.
  destruct (template_label_of_key (js "erDiagram") eq_refl) as (H & _).
  rewrite H. reflexivity.
Defined.
